(** * The drawing relay ([drawing-server/server.js])

    A shallow embedding of the WebSocket relay and the properties of its
    room registry, its per-connection state and its fan-out.

    The registry [rooms] is a JavaScript [Map] that the server only ever
    queries by key ([has], [get], [set], [delete]): it is a [gmap].  Each
    room is a JavaScript [Set] that the server walks with [forEach], whose
    order is the insertion order: it is a duplicate-free list. *)

From Stdlib Require Import ZArith String.
From Stdlib Require Import Floats.SpecFloat.
From stdpp Require Import base decidable countable option list strings functions gmap.

Local Open Scope string_scope.
Local Open Scope list_scope.
Set Warnings "-register-all".

(** ** JavaScript values *)

(** What [JSON.parse] builds.  A number is an IEEE double in canonical
    form, kept as data: the server never computes with it.  An object
    lists its own properties, each name once. *)
Inductive json : Type :=
  | JNull
  | JBool (b : bool)
  | JNum (n : spec_float)
  | JStr (s : string)
  | JArr (items : list json)
  | JObj (props : list (string * json)).

(** An object is named by the [JSON.parse] call that allocated it and by
    the property of [data] it was read from. *)
Definition ref : Type := nat * string.

(** A value held in a variable.  Arrays and objects carry their identity:
    two structurally equal objects from two messages are different keys
    of a [Map]. *)
Inductive value : Type :=
  | Undefined
  | Null
  | Bool (b : bool)
  | Number (n : spec_float)
  | String (s : string)
  | Object (r : ref) (content : json).

Definition to_value (r : ref) (j : json) : value :=
  match j with
  | JNull => Null
  | JBool b => Bool b
  | JNum n => Number n
  | JStr s => String s
  | JArr _ | JObj _ => Object r j
  end.

Fixpoint own_property (props : list (string * json)) (name : string) : option json :=
  match props with
  | [] => None
  | (k, j) :: rest => if String.eqb k name then Some j else own_property rest name
  end.

(** [data.name] for [data] that is not [null], at [name] one of the
    properties the server reads ([type], [roomId], [clientId], [x], [y],
    [prevX], [prevY], [color], [lineWidth], [drawerId]): none of them is
    on a prototype, so only an own property of an object gives a value. *)
Definition get (serial : nat) (data : json) (name : string) : value :=
  match data with
  | JObj props =>
      match own_property props name with
      | Some j => to_value (serial, name) j
      | None => Undefined
      end
  | _ => Undefined
  end.

(** ToBoolean, the test of [if (currentRoom && ...)]. *)
Definition truthy (v : value) : bool :=
  match v with
  | Undefined | Null => false
  | Bool b => b
  | Number (S754_zero _) | Number S754_nan => false
  | Number _ => true
  | String s => negb (String.eqb s "")
  | Object _ _ => true
  end.

(** What a [throw] carries: the SyntaxError of [JSON.parse], the TypeError
    of a property read on [null] or of a failed string conversion, the
    RangeError of a recursion that exhausts the stack, and an error of
    the ws library. *)
Inductive exn : Type := SyntaxError | TypeError | RangeError | WsError.

(** The exception, if any, of converting to a string, as the template
    literals of the log lines do, with room on the stack for [limit]
    nested arrays.  Primitives always convert.  An object converts
    through [toString]: the inherited one, unless the object has an own
    property of that name, which after [JSON.parse] is never a function;
    [valueOf] then returns the object itself and the conversion fails
    with a TypeError.  An array joins the conversions of its items, in
    order, one level further down the stack: the first item that fails
    decides, and an array nested deeper than the stack allows is a
    RangeError. *)
Fixpoint String_error (limit : nat) (j : json) : option exn :=
  match j with
  | JArr items =>
      match limit with
      | 0 => Some RangeError
      | S deeper =>
          (fix walk (items : list json) : option exn :=
             match items with
             | [] => None
             | item :: rest =>
                 match String_error deeper item with
                 | Some error => Some error
                 | None => walk rest
                 end
             end) items
      end
  | JObj props =>
      if bool_decide (is_Some (own_property props "toString")) then Some TypeError else None
  | _ => None
  end.

Definition to_string_error (limit : nat) (v : value) : option exn :=
  match v with
  | Object _ content => String_error limit content
  | _ => None
  end.

(** The exception of a template literal that prints [clientId], then
    [currentRoom]. *)
Definition template_error (limit : nat) (client room : value) : option exn :=
  match to_string_error limit client with
  | Some error => Some error
  | None => to_string_error limit room
  end.

(** Whether [JSON.stringify] exhausts the stack, with room for [limit]
    nested arrays or objects: it descends into both. *)
Fixpoint stringify_overflows (limit : nat) (j : json) : bool :=
  match j with
  | JArr items =>
      match limit with
      | 0 => true
      | S deeper =>
          (fix walk (items : list json) : bool :=
             match items with
             | [] => false
             | item :: rest => stringify_overflows deeper item || walk rest
             end) items
      end
  | JObj props =>
      match limit with
      | 0 => true
      | S deeper =>
          (fix walk (props : list (string * json)) : bool :=
             match props with
             | [] => false
             | (_, item) :: rest => stringify_overflows deeper item || walk rest
             end) props
      end
  | _ => false
  end.

(** ** Map keys *)

(** [Map] compares keys with SameValueZero: primitives by value, the two
    zeros alike, objects by identity.  [key_of] sends a value to its
    class. *)
Inductive key : Type :=
  | KUndefined
  | KNull
  | KBool (b : bool)
  | KNumber (n : spec_float)
  | KString (s : string)
  | KObject (r : ref).

Definition key_of (v : value) : key :=
  match v with
  | Undefined => KUndefined
  | Null => KNull
  | Bool b => KBool b
  | Number (S754_zero _) => KNumber (S754_zero false)
  | Number n => KNumber n
  | String s => KString s
  | Object r _ => KObject r
  end.

#[global] Instance spec_float_eq_dec : EqDecision spec_float.
Proof. solve_decision. Defined.

#[global] Instance key_eq_dec : EqDecision key.
Proof. solve_decision. Defined.

Definition spec_float_code (n : spec_float) : bool + bool + unit + bool * positive * Z :=
  match n with
  | S754_zero s => inl (inl (inl s))
  | S754_infinity s => inl (inl (inr s))
  | S754_nan => inl (inr tt)
  | S754_finite s m e => inr (s, m, e)
  end.

Definition spec_float_decode (c : bool + bool + unit + bool * positive * Z) : spec_float :=
  match c with
  | inl (inl (inl s)) => S754_zero s
  | inl (inl (inr s)) => S754_infinity s
  | inl (inr _) => S754_nan
  | inr (s, m, e) => S754_finite s m e
  end.

#[global] Instance spec_float_countable : Countable spec_float.
Proof.
  apply (inj_countable' spec_float_code spec_float_decode).
  intros []; reflexivity.
Defined.

Definition key_code (k : key) : unit + unit + bool + spec_float + string + ref :=
  match k with
  | KUndefined => inl (inl (inl (inl (inl tt))))
  | KNull => inl (inl (inl (inl (inr tt))))
  | KBool b => inl (inl (inl (inr b)))
  | KNumber n => inl (inl (inr n))
  | KString s => inl (inr s)
  | KObject r => inr r
  end.

Definition key_decode (c : unit + unit + bool + spec_float + string + ref) : key :=
  match c with
  | inl (inl (inl (inl (inl _)))) => KUndefined
  | inl (inl (inl (inl (inr _)))) => KNull
  | inl (inl (inl (inr b))) => KBool b
  | inl (inl (inr n)) => KNumber n
  | inl (inr s) => KString s
  | inr r => KObject r
  end.

#[global] Instance key_countable : Countable key.
Proof.
  apply (inj_countable' key_code key_decode).
  intros []; reflexivity.
Defined.

(** ** The ws library, the console and the wire *)

Inductive ready_state : Type := CONNECTING | OPEN | CLOSING | CLOSED.

#[global] Instance ready_state_eq_dec : EqDecision ready_state.
Proof. solve_decision. Defined.

(** An object literal handed to [JSON.stringify], property by property in
    the order of the source.  [JSON.stringify] leaves out the properties
    whose value is [undefined]. *)
Definition object : Type := list (string * value).

Definition is_undefined (v : value) : bool :=
  match v with Undefined => true | _ => false end.

Definition stringified_properties (obj : object) : list string :=
  (filter (fun p => is_undefined p.2 = false) obj).*1.

(** Whether [JSON.stringify(obj)] throws: when the value of a property
    is nested deeper than the stack allows. *)
Definition stringify_throws (limit : nat) (obj : object) : bool :=
  existsb (fun p => match p.2 with
                    | Object _ content => stringify_overflows limit content
                    | _ => false
                    end) obj.

(** The places of the source where a value is converted or serialised:
    the log lines of join, leave and close, the confirmation of join,
    and the send of a relay. *)
Inductive site : Type := JoinLog | JoinConfirm | RelaySend | LeaveLog | CloseLog.

Inductive console : Type :=
  | NewClientConnected
  | ClientJoinedRoom (clientId currentRoom : value)
  | ClientLeftRoom (clientId currentRoom : value)
  | ClientDisconnectedFromRoom (clientId currentRoom : value)
  | ErrorProcessingMessage (error : exn)
  | WebSocketError (error : exn).

(** What a handler does to the outside: a line on the console, or
    [client.send(JSON.stringify(obj))] that returned. *)
Inductive action : Type :=
  | Console (line : console)
  | Send (client : nat) (obj : object).

(** The platform under the server: the frames, [JSON.parse] ([None] when
    it throws), the levels of nesting the stack still has room for at
    each place where a value is converted or serialised, and whether
    [send] of the ws library throws on a socket in a given state.  It
    never does on an open socket: ws 8 throws on a socket that is still
    connecting, older versions on any socket that is not open; a write
    that fails later is reported by the ['error'] event of that
    socket. *)
Class Runtime : Type := {
  raw : Type;
  JSON_parse : raw -> option json;
  stack : site -> nat;
  send_throws : ready_state -> bool;
  send_returns_when_open : send_throws OPEN = false
}.

(** ** State *)

(** One accepted connection: the state of its socket and the two variables
    of the closure made by the connection callback. *)
Record socket : Type := {
  readyState : ready_state;
  currentRoom : value;
  clientId : value
}.

(** Sockets are numbered in the order they are accepted. *)
Record server : Type := {
  rooms : gmap key (list nat);
  sockets : nat -> socket;
  accepted : nat;
  parses : nat
}.

Definition initial : server :=
  {| rooms := empty;
     sockets := fun _ => {| readyState := CONNECTING; currentRoom := Null; clientId := Null |};
     accepted := 0;
     parses := 0 |}.

Definition with_rooms (s : server) (r : gmap key (list nat)) : server :=
  {| rooms := r; sockets := sockets s; accepted := accepted s; parses := parses s |}.

Definition with_socket (s : server) (ws : nat) (sk : socket) : server :=
  {| rooms := rooms s; sockets := <[ws := sk]> (sockets s);
     accepted := accepted s; parses := parses s |}.

Definition allocate (s : server) : server :=
  {| rooms := rooms s; sockets := sockets s; accepted := accepted s; parses := S (parses s) |}.

(** ** Set and Map operations of the source *)

Definition Set_add (ws : nat) (clients : list nat) : list nat :=
  if decide (ws ∈ clients) then clients else clients ++ [ws].

Definition Set_delete (ws : nat) (clients : list nat) : list nat :=
  filter (fun client => client <> ws) clients.

Definition has (r : gmap key (list nat)) (room : value) : bool :=
  bool_decide (is_Some (r !! key_of room)).

(** [rooms.get(room)], read only where [rooms.has(room)] holds. *)
Definition members (r : gmap key (list nat)) (room : value) : list nat :=
  default [] (r !! key_of room).

(** [if (!rooms.has(room)) rooms.set(room, new Set())] *)
Definition ensure_room (r : gmap key (list nat)) (room : value) : gmap key (list nat) :=
  if has r room then r else <[key_of room := []]> r.

(** [rooms.get(room).add(ws)] *)
Definition add_client (r : gmap key (list nat)) (room : value) (ws : nat)
    : gmap key (list nat) :=
  <[key_of room := Set_add ws (members r room)]> r.

(** [rooms.get(room).delete(ws)] *)
Definition delete_client (r : gmap key (list nat)) (room : value) (ws : nat)
    : gmap key (list nat) :=
  <[key_of room := Set_delete ws (members r room)]> r.

(** [if (rooms.get(room).size === 0) rooms.delete(room)] *)
Definition clean_up (r : gmap key (list nat)) (room : value) : gmap key (list nat) :=
  if bool_decide (length (members r room) = 0) then delete (key_of room) r else r.

(** ** The handlers *)

Section Handlers.
Context `{Runtime}.

(** [clients.forEach((client) => { if (client !== ws &&
    client.readyState === WebSocket.OPEN)
    client.send(JSON.stringify(obj)) })]: the object is serialised anew
    for each recipient, and a [JSON.stringify] or a [send] that throws
    ends the walk. *)
Fixpoint forEach_send (sk : nat -> socket) (ws : nat) (obj : object)
    (clients : list nat) : list action * option exn :=
  match clients with
  | [] => ([], None)
  | client :: rest =>
      if bool_decide (client <> ws) && bool_decide (readyState (sk client) = OPEN) then
        if stringify_throws (stack RelaySend) obj then ([], Some RangeError)
        else if send_throws (readyState (sk client)) then ([], Some WsError)
        else
          let '(acts, thrown) := forEach_send sk ws obj rest in
          (Send client obj :: acts, thrown)
      else forEach_send sk ws obj rest
  end.

(** The block the five relay cases share:
    [if (currentRoom && rooms.has(currentRoom)) { ... forEach ... }]. *)
Definition broadcast (s : server) (ws : nat) (obj : object)
    : server * list action * option exn :=
  let room := currentRoom (sockets s ws) in
  if truthy room && has (rooms s) room then
    let clients := members (rooms s) room in
    let '(acts, thrown) := forEach_send (sockets s) ws obj clients in
    (s, acts, thrown)
  else (s, [], None).

Definition drawData (serial : nat) (data : json) : object :=
  [("type", String "draw"); ("x", get serial data "x"); ("y", get serial data "y");
   ("prevX", get serial data "prevX"); ("prevY", get serial data "prevY");
   ("color", get serial data "color"); ("lineWidth", get serial data "lineWidth");
   ("drawerId", get serial data "drawerId")].

Definition endData (serial : nat) (data : json) : object :=
  [("type", String "strokeEnd"); ("drawerId", get serial data "drawerId")].

Definition fillData (serial : nat) (data : json) : object :=
  [("type", String "fill"); ("x", get serial data "x"); ("y", get serial data "y");
   ("color", get serial data "color"); ("drawerId", get serial data "drawerId")].

Definition clearData (serial : nat) (data : json) : object :=
  [("type", String "clear"); ("drawerId", get serial data "drawerId")].

Definition undoData (serial : nat) (data : json) : object :=
  [("type", String "undo"); ("drawerId", get serial data "drawerId")].

(** [case 'join']: the variables and the registry change before the log
    line is built and before the confirmation is sent. *)
Definition join (s : server) (ws : nat) (serial : nat) (data : json)
    : server * list action * option exn :=
  let room := get serial data "roomId" in
  let client := get serial data "clientId" in
  let state := readyState (sockets s ws) in
  let s1 := with_socket s ws
    {| readyState := state; currentRoom := room; clientId := client |} in
  let s2 := with_rooms s1 (add_client (ensure_room (rooms s1) room) room ws) in
  match template_error (stack JoinLog) client room with
  | Some error => (s2, [], Some error)
  | None =>
      if stringify_throws (stack JoinConfirm) [("type", String "joined"); ("roomId", room)]
      then (s2, [Console (ClientJoinedRoom client room)], Some RangeError)
      else if send_throws state then
        (s2, [Console (ClientJoinedRoom client room)], Some WsError)
      else
        (s2, [Console (ClientJoinedRoom client room);
              Send ws [("type", String "joined"); ("roomId", room)]], None)
  end.

(** [case 'leave']: the log line stands between the removal and the
    clean-up of the empty room. *)
Definition leave (s : server) (ws : nat) : server * list action * option exn :=
  let room := currentRoom (sockets s ws) in
  let client := clientId (sockets s ws) in
  if truthy room && has (rooms s) room then
    let r1 := delete_client (rooms s) room ws in
    match template_error (stack LeaveLog) client room with
    | Some error => (with_rooms s r1, [], Some error)
    | None => (with_rooms s (clean_up r1 room), [Console (ClientLeftRoom client room)], None)
    end
  else (s, [], None).

(** [data.type === name] *)
Definition type_is (data_type : value) (name : string) : bool :=
  match data_type with
  | String s => String.eqb s name
  | _ => false
  end.

(** The body of the [try]: the state reached, what was done, and the
    exception on its way to the [catch], if any. *)
Definition switch (s : server) (ws : nat) (serial : nat) (data : json)
    : server * list action * option exn :=
  match data with
  | JNull => (s, [], Some TypeError)
  | _ =>
      let data_type := get serial data "type" in
      if type_is data_type "join" then join s ws serial data
      else if type_is data_type "draw" then broadcast s ws (drawData serial data)
      else if type_is data_type "strokeEnd" then broadcast s ws (endData serial data)
      else if type_is data_type "fill" then broadcast s ws (fillData serial data)
      else if type_is data_type "clear" then broadcast s ws (clearData serial data)
      else if type_is data_type "undo" then broadcast s ws (undoData serial data)
      else if type_is data_type "leave" then leave s ws
      else (s, [], None)
  end.

(** [ws.on('message', ...)].  [parses] counts the calls of [JSON.parse]
    that returned: it names the objects of the message. *)
Definition on_message (s : server) (ws : nat) (message : raw) : server * list action :=
  match JSON_parse message with
  | None => (s, [Console (ErrorProcessingMessage SyntaxError)])
  | Some data =>
      let '(s', acts, thrown) := switch (allocate s) ws (parses s) data in
      match thrown with
      | Some error => (s', acts ++ [Console (ErrorProcessingMessage error)])
      | None => (s', acts)
      end
  end.

(** [ws.on('close', ...)]: no [try] around it.  [None] is the exception
    of the log line leaving the listener, which ends the process. *)
Definition on_close (s : server) (ws : nat) : option (server * list action) :=
  let room := currentRoom (sockets s ws) in
  let client := clientId (sockets s ws) in
  if truthy room && has (rooms s) room then
    let r1 := delete_client (rooms s) room ws in
    match template_error (stack CloseLog) client room with
    | Some _ => None
    | None => Some (with_rooms s (clean_up r1 room),
                    [Console (ClientDisconnectedFromRoom client room)])
    end
  else Some (s, []).

(** [ws.on('error', ...)] *)
Definition on_error (s : server) (ws : nat) (error : exn) : server * list action :=
  (s, [Console (WebSocketError error)]).

(** [wss.on('connection', ...)]: a new socket, open, and a new closure
    with both variables [null]. *)
Definition on_connection (s : server) : server * list action :=
  let ws := accepted s in
  ({| rooms := rooms s;
      sockets := <[ws := {| readyState := OPEN; currentRoom := Null; clientId := Null |}]>
                   (sockets s);
      accepted := S ws;
      parses := parses s |},
   [Console NewClientConnected]).

(** ** The event loop *)

(** What the ws library raises, one event at a time.  [Closing] is the
    start of a closing handshake, which no listener sees; [Close] is the
    ['close'] event, raised once the socket is closed. *)
Inductive event : Type :=
  | Connection
  | Message (ws : nat) (message : raw)
  | Closing (ws : nat)
  | Close (ws : nat)
  | Error (ws : nat) (error : exn).

Definition set_readyState (s : server) (ws : nat) (state : ready_state) : server :=
  with_socket s ws
    {| readyState := state;
       currentRoom := currentRoom (sockets s ws);
       clientId := clientId (sockets s ws) |}.

Definition dispatch (s : server) (ev : event) : option (server * list action) :=
  match ev with
  | Connection => Some (on_connection s)
  | Message ws message => Some (on_message s ws message)
  | Closing ws => Some (set_readyState s ws CLOSING, [])
  | Close ws => on_close (set_readyState s ws CLOSED) ws
  | Error ws error => Some (on_error s ws error)
  end.

(** The events the library can raise in a state: on accepted sockets
    only, messages while the socket is open, nothing after ['close']. *)
Definition possible (s : server) (ev : event) : bool :=
  match ev with
  | Connection => true
  | Message ws _ | Closing ws =>
      bool_decide (ws < accepted s) && bool_decide (readyState (sockets s ws) = OPEN)
  | Close ws | Error ws _ =>
      bool_decide (ws < accepted s) && bool_decide (readyState (sockets s ws) <> CLOSED)
  end.

(** The loop runs each listener to completion before the next event;
    an exception that leaves a listener ends the run. *)
Fixpoint run (s : server) (evs : list event) : option (server * list action) :=
  match evs with
  | [] => Some (s, [])
  | ev :: rest =>
      match dispatch s ev with
      | None => None
      | Some (s1, acts1) =>
          match run s1 rest with
          | None => None
          | Some (s2, acts2) => Some (s2, acts1 ++ acts2)
          end
      end
  end.

(** A run the library can produce and the process survives. *)
Fixpoint feasible (s : server) (evs : list event) : bool :=
  match evs with
  | [] => true
  | ev :: rest =>
      possible s ev &&
      match dispatch s ev with
      | None => false
      | Some (s1, _) => feasible s1 rest
      end
  end.

End Handlers.

(** ** Vocabulary of the statements *)

(** The member set stored under a key, empty when the key is absent. *)
Definition clients_of (r : gmap key (list nat)) (k : key) : list nat :=
  default [] (r !! k).

(** The objects a run of a handler sent to one socket, in order. *)
Definition sent_to (client : nat) (acts : list action) : list object :=
  omap (fun a => match a with
                 | Send c obj => if decide (c = client) then Some obj else None
                 | Console _ => None
                 end) acts.

(** The two variables of the closure of a socket. *)
Definition vars (s : server) (ws : nat) : value * value :=
  (currentRoom (sockets s ws), clientId (sockets s ws)).

(** ** Invariants of the registry and the closures *)

Definition duplicate_free (r : gmap key (list nat)) : Prop :=
  forall k clients, r !! k = Some clients -> NoDup clients.

Definition no_empty_room (r : gmap key (list nat)) : Prop :=
  forall k clients, r !! k = Some clients -> clients <> [].

Definition one_room_each (r : gmap key (list nat)) : Prop :=
  forall ws k1 k2, ws ∈ clients_of r k1 -> ws ∈ clients_of r k2 -> k1 = k2.

Section Vocabulary.
Context `{Runtime}.

(** The object a relay case builds for [data], for [data.type] one of
    the five relay types. *)
Definition relay_object (serial : nat) (data : json) : option object :=
  let data_type := get serial data "type" in
  if type_is data_type "draw" then Some (drawData serial data)
  else if type_is data_type "strokeEnd" then Some (endData serial data)
  else if type_is data_type "fill" then Some (fillData serial data)
  else if type_is data_type "clear" then Some (clearData serial data)
  else if type_is data_type "undo" then Some (undoData serial data)
  else None.

(** The states the loop can be in. *)
Definition reachable (s : server) : Prop :=
  exists evs acts, run initial evs = Some (s, acts).

(** A condition on each event of a run, in the state it is raised in. *)
Fixpoint admits (ok : server -> event -> Prop) (s : server) (evs : list event) : Prop :=
  match evs with
  | [] => True
  | ev :: rest =>
      ok s ev /\
      match dispatch s ev with
      | Some (s1, _) => admits ok s1 rest
      | None => True
      end
  end.

(** A value that each of the three log lines can convert to a string. *)
Definition prints (v : value) : Prop :=
  to_string_error (stack JoinLog) v = None /\
  to_string_error (stack LeaveLog) v = None /\
  to_string_error (stack CloseLog) v = None.

Definition closures_printable (s : server) : Prop :=
  forall ws, prints (vars s ws).1 /\ prints (vars s ws).2.

(** A join whose identifiers the log lines can print. *)
Definition printable (s : server) (ev : event) : Prop :=
  match ev with
  | Message ws message =>
      forall data,
        JSON_parse message = Some data ->
        type_is (get (parses s) data "type") "join" = true ->
        prints (get (parses s) data "roomId") /\
        prints (get (parses s) data "clientId")
  | _ => True
  end.

(** A join from a socket that is in no other room. *)
Definition joins_from_outside (s : server) (ev : event) : Prop :=
  match ev with
  | Message ws message =>
      forall data,
        JSON_parse message = Some data ->
        type_is (get (parses s) data "type") "join" = true ->
        forall k, ws ∈ clients_of (rooms s) k -> k = key_of (get (parses s) data "roomId")
  | _ => True
  end.

End Vocabulary.

(** The fields section 4.3 of the specification lists for each relay
    type, to compare with the objects the relay cases build. *)
Definition enumerated_fields : list (string * list string) :=
  [("draw", ["x"; "y"; "prevX"; "prevY"; "color"; "lineWidth"; "drawerId"]);
   ("strokeEnd", ["drawerId"]);
   ("fill", ["x"; "y"; "color"; "drawerId"]);
   ("clear", ["drawerId"]);
   ("undo", ["drawerId"])].

(** ** A concrete platform for the examples *)

(** A frame stands for what [JSON.parse] makes of it; the stack has room
    for five thousand levels of nesting at every place; [send] throws on
    a socket that is still connecting, as in ws 8. *)
Definition ws8 : Runtime :=
  {| raw := option json;
     JSON_parse := fun frame => frame;
     stack := fun _ => 5000;
     send_throws := fun state => match state with CONNECTING => true | _ => false end;
     send_returns_when_open := eq_refl |}.

Definition connects : @event ws8 := @Connection ws8.
Definition says (ws : nat) (frame : option json) : @event ws8 := @Message ws8 ws frame.
Definition starts_closing (ws : nat) : @event ws8 := @Closing ws8 ws.
Definition closes (ws : nat) : @event ws8 := @Close ws8 ws.

Definition join_frame (room client : string) : option json :=
  Some (JObj [("type", JStr "join"); ("roomId", JStr room); ("clientId", JStr client)]).

Definition leave_frame : option json := Some (JObj [("type", JStr "leave")]).

Definition clear_frame (drawer : string) : option json :=
  Some (JObj [("type", JStr "clear"); ("drawerId", JStr drawer)]).

(** [{"type":"draw","x":10,"y":20,"drawerId":"c1","pressure":3}]: no
    [color], and a field the server does not know. *)
Definition draw_frame : option json :=
  Some (JObj [("type", JStr "draw");
              ("x", JNum (S754_finite false 5 1)); ("y", JNum (S754_finite false 5 2));
              ("drawerId", JStr "c1"); ("pressure", JNum (S754_finite false 3 0))]).

(** The state a feasible run ends in. *)
Definition state_after (evs : list (@event ws8)) : server :=
  match run initial evs with
  | Some (s, _) => s
  | None => initial
  end.

(** What a feasible run did, in order. *)
Definition actions_of (evs : list (@event ws8)) : list action :=
  match run initial evs with
  | Some (_, acts) => acts
  | None => []
  end.

(** Three sockets join one room; the second starts closing. *)
Definition three_in_room (room : string) : list (@event ws8) :=
  [connects; connects; connects;
   says 0 (join_frame room "c1"); says 1 (join_frame room "c2");
   says 2 (join_frame room "c3"); starts_closing 1].

(** Two sockets join one room. *)
Definition two_in_room (room : string) : list (@event ws8) :=
  [connects; connects;
   says 0 (join_frame room "c1"); says 1 (join_frame room "c2")].

(** Sockets 0 and 1 join R1, socket 2 joins R2. *)
Definition two_rooms : list (@event ws8) :=
  [connects; connects; connects;
   says 0 (join_frame "R1" "c1"); says 1 (join_frame "R1" "c2");
   says 2 (join_frame "R2" "c3")].

(** One socket joins a room, then another room. *)
Definition joins_twice : list (@event ws8) :=
  [connects; says 0 (join_frame "R1" "c1"); says 0 (join_frame "R2" "c1")].

(** One socket joins a room, leaves it, and joins another. *)
Definition leaves_then_joins : list (@event ws8) :=
  [connects; says 0 (join_frame "R1" "c1"); says 0 leave_frame;
   says 0 (join_frame "R2" "c1")].

(** [{"type":"join","clientId":"c1"}]: no [roomId]. *)
Definition join_frame_without_room : option json :=
  Some (JObj [("type", JStr "join"); ("clientId", JStr "c1")]).

(** [{"type":"join","roomId":"R1","clientId":{"toString":null}}]: a
    [clientId] that no template literal can print. *)
Definition join_frame_with_unprintable_client : option json :=
  Some (JObj [("type", JStr "join"); ("roomId", JStr "R1");
              ("clientId", JObj [("toString", JNull)])]).

(** [{"type":"join","clientId":{"toString":null}}]: no [roomId], and a
    [clientId] that no template literal can print. *)
Definition join_frame_without_room_unprintable : option json :=
  Some (JObj [("type", JStr "join"); ("clientId", JObj [("toString", JNull)])]).

(** ** Further vocabulary *)

(** The values of [data.type] that [switch] has a case for. *)
Definition handled_types : list string :=
  ["join"; "draw"; "strokeEnd"; "fill"; "clear"; "undo"; "leave"].

(** Every object that is a key of the registry was allocated by a parse
    that has already returned. *)
Definition keys_allocated (s : server) : Prop :=
  forall serial name, is_Some (rooms s !! KObject (serial, name)) -> serial < parses s.

(** [{"type":"chat","text":"hi"}]: a type the server has no case for. *)
Definition chat_frame : option json :=
  Some (JObj [("type", JStr "chat"); ("text", JStr "hi")]).

(** [{"type":"join","roomId":["R1"],"clientId":"c1"}]: an array as room. *)
Definition join_frame_with_array_room (client : string) : option json :=
  Some (JObj [("type", JStr "join"); ("roomId", JArr [JStr "R1"]);
              ("clientId", JStr client)]).

(** Sockets 0 and 1 join R1; socket 1 closes. *)
Definition one_closes : list (@event ws8) :=
  two_in_room "R1" ++ [closes 1].

(** Three sockets join R1, all open. *)
Definition three_open : list (@event ws8) :=
  [connects; connects; connects;
   says 0 (join_frame "R1" "c1"); says 1 (join_frame "R1" "c2");
   says 2 (join_frame "R1" "c3")].

(** [j] wrapped in [depth] arrays of one item. *)
Definition nest (depth : N) (j : json) : json :=
  N.iter depth (fun inner => JArr [inner]) j.


(** [{"type":"join","roomId":"R1","clientId":[[...["c1"]...]]}]: a
    [clientId] nested too deep for a template literal. *)
Definition join_frame_with_deep_client : option json :=
  Some (JObj [("type", JStr "join"); ("roomId", JStr "R1");
              ("clientId", nest 6000 (JStr "c1"))]).

(** Sockets 0 and 1 join R1, then socket 1 joins R2. *)
Definition one_moves_on : list (@event ws8) :=
  two_in_room "R1" ++ [says 1 (join_frame "R2" "c2")].

(** * Properties *)

(** ** The walk over a room *)

Section Walk.
Context `{Runtime}.

Lemma forEach_send_completes sk ws obj clients :
  stringify_throws (stack RelaySend) obj = false ->
  forEach_send sk ws obj clients =
    ((fun client => Send client obj) <$>
       filter (fun client => client <> ws /\ readyState (sk client) = OPEN) clients,
     None).
Proof.
  intros Hobj.
  induction clients as [|client rest IH]; [reflexivity|].
  cbn [forEach_send]. rewrite filter_cons.
  destruct (decide (client <> ws /\ readyState (sk client) = OPEN)) as [[Hne Hopen]|Hno].
  - rewrite (bool_decide_eq_true_2 _ Hne), (bool_decide_eq_true_2 _ Hopen).
    cbn [andb]. rewrite Hobj, Hopen, send_returns_when_open, IH. reflexivity.
  - assert (bool_decide (client <> ws) && bool_decide (readyState (sk client) = OPEN) = false)
      as ->; [|exact IH].
    apply andb_false_iff.
    destruct (decide (client <> ws)) as [Hne|Heq].
    + right. apply bool_decide_eq_false_2. tauto.
    + left. apply bool_decide_eq_false_2. exact Heq.
Qed.

End Walk.

Lemma sent_to_fmap_Send client obj (l : list nat) :
  sent_to client ((fun c => Send c obj) <$> l) =
    (fun _ => obj) <$> filter (fun c => c = client) l.
Proof.
  induction l as [|c l IH]; [reflexivity|].
  rewrite fmap_cons, filter_cons. unfold sent_to in *. cbn.
  destruct (decide (c = client)); cbn; rewrite <- IH; reflexivity.
Qed.

Lemma filter_eq_NoDup (client : nat) (l : list nat) :
  NoDup l -> filter (fun c => c = client) l = if decide (client ∈ l) then [client] else [].
Proof.
  induction 1 as [|c l Hc Hl IH]; [reflexivity|].
  rewrite filter_cons, IH.
  destruct (decide (c = client)) as [->|Hne].
  - rewrite (decide_True (P := client ∈ client :: l)) by (left).
    rewrite (decide_False (P := client ∈ l)) by assumption. reflexivity.
  - destruct (decide (client ∈ l)).
    + rewrite decide_True; [reflexivity | by right].
    + rewrite decide_False; [reflexivity|].
      rewrite elem_of_cons. intros [->|]; tauto.
Qed.

(** ** The registry operations *)

Section Registry.
Implicit Types (r : gmap key (list nat)) (room : value) (k : key) (ws client : nat).

Lemma members_clients_of r room : members r room = clients_of r (key_of room).
Proof. reflexivity. Qed.

Lemma has_false r room : has r room = false <-> r !! key_of room = None.
Proof.
  unfold has. rewrite bool_decide_eq_false, eq_None_not_Some. reflexivity.
Qed.

Lemma elem_of_Set_add client ws clients :
  client ∈ Set_add ws clients <-> client ∈ clients \/ client = ws.
Proof.
  unfold Set_add. destruct (decide (ws ∈ clients)) as [Hin|Hout].
  - split; [tauto|]. intros [?| ->]; assumption.
  - rewrite elem_of_app, list_elem_of_singleton. reflexivity.
Qed.

Lemma NoDup_Set_add ws clients : NoDup clients -> NoDup (Set_add ws clients).
Proof.
  intros Hnd. unfold Set_add. destruct (decide (ws ∈ clients)) as [Hin|Hout]; [assumption|].
  apply NoDup_app. split; [assumption|]. split; [|apply NoDup_singleton].
  intros x Hx. rewrite list_elem_of_singleton. intros ->. contradiction.
Qed.

Lemma Set_add_nonempty ws clients : Set_add ws clients <> [].
Proof.
  intros Heq. assert (ws ∈ Set_add ws clients) as Hin by (apply elem_of_Set_add; tauto).
  rewrite Heq in Hin. inversion Hin.
Qed.

Lemma elem_of_Set_delete client ws clients :
  client ∈ Set_delete ws clients <-> client ∈ clients /\ client <> ws.
Proof. unfold Set_delete. rewrite list_elem_of_filter. tauto. Qed.

Lemma NoDup_Set_delete ws clients : NoDup clients -> NoDup (Set_delete ws clients).
Proof. apply NoDup_filter. Qed.

Lemma Set_delete_only ws : Set_delete ws [ws] = [].
Proof. unfold Set_delete. rewrite filter_cons, decide_False by tauto. reflexivity. Qed.

Lemma clients_of_ensure_room r room k :
  clients_of (ensure_room r room) k = clients_of r k.
Proof.
  unfold ensure_room. destruct (has r room) eqn:Hhas; [reflexivity|].
  apply has_false in Hhas. unfold clients_of.
  destruct (decide (k = key_of room)) as [->|Hne].
  - rewrite lookup_insert_eq, Hhas. reflexivity.
  - rewrite lookup_insert_ne by congruence. reflexivity.
Qed.

Lemma lookup_ensure_room_ne r room k :
  k <> key_of room -> ensure_room r room !! k = r !! k.
Proof.
  intros Hne. unfold ensure_room. destruct (has r room); [reflexivity|].
  apply lookup_insert_ne. congruence.
Qed.

(** The registry after [join]: one entry holds the socket, the others
    are as before. *)
Lemma lookup_joined r room ws k :
  add_client (ensure_room r room) room ws !! k =
    if decide (k = key_of room) then Some (Set_add ws (clients_of r k)) else r !! k.
Proof.
  unfold add_client. rewrite members_clients_of, clients_of_ensure_room.
  destruct (decide (k = key_of room)) as [->|Hne].
  - apply lookup_insert_eq.
  - rewrite lookup_insert_ne by congruence. exact (lookup_ensure_room_ne r room k Hne).
Qed.

Lemma lookup_delete_client r room ws k :
  delete_client r room ws !! k =
    if decide (k = key_of room) then Some (Set_delete ws (clients_of r k)) else r !! k.
Proof.
  unfold delete_client. rewrite members_clients_of.
  destruct (decide (k = key_of room)) as [->|Hne].
  - apply lookup_insert_eq.
  - apply lookup_insert_ne. congruence.
Qed.

Lemma lookup_clean_up r room k :
  clean_up r room !! k =
    if decide (k = key_of room /\ clients_of r k = []) then None else r !! k.
Proof.
  unfold clean_up. rewrite members_clients_of.
  destruct (decide (k = key_of room /\ clients_of r k = [])) as [[-> Hnil]|Hno].
  - rewrite Hnil. cbn. apply lookup_delete_eq.
  - case_bool_decide as Hlen; [|reflexivity].
    apply length_zero_iff_nil in Hlen.
    apply lookup_delete_ne. intros <-. tauto.
Qed.

(** The registry after the removal and the clean-up. *)
Lemma lookup_departed r room ws k :
  clean_up (delete_client r room ws) room !! k =
    if decide (k = key_of room) then
      if decide (Set_delete ws (clients_of r k) = []) then None
      else Some (Set_delete ws (clients_of r k))
    else r !! k.
Proof.
  assert (clients_of (delete_client r room ws) (key_of room) =
          Set_delete ws (clients_of r (key_of room))) as Hcl.
  { unfold clients_of at 1.
    rewrite (lookup_delete_client r room ws (key_of room)), decide_True by reflexivity.
    reflexivity. }
  rewrite (lookup_clean_up (delete_client r room ws) room k).
  rewrite (lookup_delete_client r room ws k).
  destruct (decide (k = key_of room)) as [->|Hne].
  - rewrite Hcl.
    destruct (decide (Set_delete ws (clients_of r (key_of room)) = [])) as [Hnil|Hcons].
    + rewrite decide_True by tauto. reflexivity.
    + rewrite decide_False by tauto. reflexivity.
  - rewrite decide_False by tauto. reflexivity.
Qed.
End Registry.

(** ** The cases of a message *)

Section Cases.
Context `{Runtime}.
Implicit Types (s : server) (ws : nat) (data : json).

Lemma type_is_String (t : value) (name : string) :
  type_is t name = true <-> t = String name.
Proof.
  destruct t; cbn; try (split; [discriminate | congruence]).
  rewrite String.eqb_eq. split; congruence.
Qed.

Lemma type_is_other (t : value) (name name' : string) :
  type_is t name = true -> name <> name' -> type_is t name' = false.
Proof.
  intros Ht Hne. apply type_is_String in Ht. subst t. cbn.
  apply String.eqb_neq, Hne.
Qed.

Lemma switch_not_null s ws serial data :
  data <> JNull ->
  switch s ws serial data =
    let data_type := get serial data "type" in
    if type_is data_type "join" then join s ws serial data
    else if type_is data_type "draw" then broadcast s ws (drawData serial data)
    else if type_is data_type "strokeEnd" then broadcast s ws (endData serial data)
    else if type_is data_type "fill" then broadcast s ws (fillData serial data)
    else if type_is data_type "clear" then broadcast s ws (clearData serial data)
    else if type_is data_type "undo" then broadcast s ws (undoData serial data)
    else if type_is data_type "leave" then leave s ws
    else (s, [], None).
Proof. destruct data; [congruence | reflexivity..]. Qed.

Lemma typed_not_null serial data name :
  type_is (get serial data "type") name = true -> data <> JNull.
Proof. intros Ht ->. discriminate Ht. Qed.

Lemma switch_join s ws serial data :
  type_is (get serial data "type") "join" = true ->
  switch s ws serial data = join s ws serial data.
Proof.
  intros Ht. rewrite switch_not_null by (eapply typed_not_null, Ht).
  cbn zeta. rewrite Ht. reflexivity.
Qed.

Lemma switch_leave s ws serial data :
  type_is (get serial data "type") "leave" = true ->
  switch s ws serial data = leave s ws.
Proof.
  intros Ht. rewrite switch_not_null by (eapply typed_not_null, Ht).
  cbn zeta.
  rewrite !(type_is_other _ "leave" _ Ht) by discriminate.
  rewrite Ht. reflexivity.
Qed.

Lemma relay_object_not_join serial data obj :
  relay_object serial data = Some obj ->
  type_is (get serial data "type") "join" = false /\ data <> JNull.
Proof.
  unfold relay_object. intros Hobj.
  destruct (type_is (get serial data "type") "join") eqn:Hjoin.
  - rewrite !(type_is_other _ "join" _ Hjoin) in Hobj by discriminate. discriminate.
  - split; [reflexivity|]. intros ->. discriminate Hobj.
Qed.

Lemma switch_relay s ws serial data obj :
  relay_object serial data = Some obj ->
  switch s ws serial data = broadcast s ws obj.
Proof.
  intros Hobj. destruct (relay_object_not_join _ _ _ Hobj) as [Hjoin Hnull].
  rewrite switch_not_null by assumption. cbn zeta. rewrite Hjoin.
  unfold relay_object in Hobj. cbn zeta in Hobj.
  destruct (type_is (get serial data "type") "draw"); [injection Hobj as <-; reflexivity|].
  destruct (type_is (get serial data "type") "strokeEnd"); [injection Hobj as <-; reflexivity|].
  destruct (type_is (get serial data "type") "fill"); [injection Hobj as <-; reflexivity|].
  destruct (type_is (get serial data "type") "clear"); [injection Hobj as <-; reflexivity|].
  destruct (type_is (get serial data "type") "undo"); [injection Hobj as <-; reflexivity|].
  discriminate.
Qed.

(** Every message is a throw on [null], a join, a relay, a leave, or
    nothing. *)
Lemma switch_cases s ws serial data :
  switch s ws serial data = (s, [], Some TypeError)
  \/ (type_is (get serial data "type") "join" = true /\
      switch s ws serial data = join s ws serial data)
  \/ (exists obj, relay_object serial data = Some obj /\
      switch s ws serial data = broadcast s ws obj)
  \/ (type_is (get serial data "type") "leave" = true /\
      switch s ws serial data = leave s ws)
  \/ switch s ws serial data = (s, [], None).
Proof.
  assert (data = JNull \/ data <> JNull) as [->|Hnull]
    by (destruct data; [left; reflexivity | right; discriminate..]).
  { left; reflexivity. }
  destruct (type_is (get serial data "type") "join") eqn:Hjoin.
  { right; left. split; [reflexivity|]. apply switch_join, Hjoin. }
  destruct (relay_object serial data) as [obj|] eqn:Hobj.
  { right; right; left. exists obj. split; [reflexivity|]. apply switch_relay, Hobj. }
  destruct (type_is (get serial data "type") "leave") eqn:Hleave.
  { right; right; right; left. split; [reflexivity|]. apply switch_leave, Hleave. }
  right; right; right; right.
  rewrite switch_not_null by assumption. cbn zeta. rewrite Hjoin, Hleave.
  unfold relay_object in Hobj. cbn zeta in Hobj.
  destruct (type_is (get serial data "type") "draw"); [discriminate Hobj|].
  destruct (type_is (get serial data "type") "strokeEnd"); [discriminate Hobj|].
  destruct (type_is (get serial data "type") "fill"); [discriminate Hobj|].
  destruct (type_is (get serial data "type") "clear"); [discriminate Hobj|].
  destruct (type_is (get serial data "type") "undo"); [discriminate Hobj|].
  reflexivity.
Qed.

Lemma broadcast_state s ws obj : (broadcast s ws obj).1.1 = s.
Proof.
  unfold broadcast.
  destruct (truthy _ && has _ _); [|reflexivity].
  destruct (forEach_send _ _ _ _). reflexivity.
Qed.

Lemma broadcast_not_joined s ws obj :
  truthy (currentRoom (sockets s ws)) = false -> broadcast s ws obj = (s, [], None).
Proof. intros Hfalsy. unfold broadcast. rewrite Hfalsy. reflexivity. Qed.

End Cases.

(** ** What one event does to the registry and to the closures *)

Section Effects.
Context `{Runtime}.
Implicit Types (s : server) (ws : nat) (data : json).

Lemma vars_set_readyState s ws state c : vars (set_readyState s ws state) c = vars s c.
Proof.
  unfold vars, set_readyState, with_socket. cbn.
  destruct (decide (ws = c)) as [->|Hne].
  - rewrite fn_lookup_insert. reflexivity.
  - rewrite fn_lookup_insert_ne by assumption. reflexivity.
Qed.

Lemma join_state s ws serial data :
  let room := get serial data "roomId" in
  let s' := (join s ws serial data).1.1 in
  rooms s' = add_client (ensure_room (rooms s) room) room ws /\
  sockets s' = <[ws := {| readyState := readyState (sockets s ws);
                          currentRoom := room;
                          clientId := get serial data "clientId" |}]> (sockets s).
Proof.
  cbn zeta. unfold join.
  destruct (template_error _ _ _); [split; reflexivity|].
  destruct (stringify_throws _ _); [split; reflexivity|].
  destruct (send_throws _); split; reflexivity.
Qed.

Lemma leave_state s ws :
  let room := currentRoom (sockets s ws) in
  let s' := (leave s ws).1.1 in
  sockets s' = sockets s /\
  (rooms s' = rooms s
   \/ (template_error (stack LeaveLog) (clientId (sockets s ws)) room <> None /\
       rooms s' = delete_client (rooms s) room ws)
   \/ (template_error (stack LeaveLog) (clientId (sockets s ws)) room = None /\
       truthy room && has (rooms s) room = true /\
       rooms s' = clean_up (delete_client (rooms s) room ws) room)).
Proof.
  cbn zeta. unfold leave.
  destruct (truthy _ && has _ _); [|split; [reflexivity | left; reflexivity]].
  destruct (template_error _ _ _); (split; [reflexivity | right]).
  - left. split; [discriminate | reflexivity].
  - right. repeat split; reflexivity.
Qed.

Lemma on_close_state s ws s' acts :
  on_close s ws = Some (s', acts) ->
  let room := currentRoom (sockets s ws) in
  sockets s' = sockets s /\
  (rooms s' = rooms s
   \/ (template_error (stack CloseLog) (clientId (sockets s ws)) room = None /\
       truthy room && has (rooms s) room = true /\
       rooms s' = clean_up (delete_client (rooms s) room ws) room)).
Proof.
  cbn zeta. unfold on_close.
  destruct (truthy _ && has _ _).
  - destruct (template_error _ _ _); [discriminate|].
    intros [= <- <-]. split; [reflexivity | right]. repeat split; reflexivity.
  - intros [= <- <-]. split; [reflexivity | left; reflexivity].
Qed.

Lemma sockets_set_readyState s ws state :
  sockets (set_readyState s ws state) ws =
    {| readyState := state;
       currentRoom := currentRoom (sockets s ws);
       clientId := clientId (sockets s ws) |}.
Proof. unfold set_readyState, with_socket. cbn. apply fn_lookup_insert. Qed.

(** The state a message leaves, whatever was thrown and caught. *)
Lemma on_message_state s ws message :
  match JSON_parse message with
  | None => (on_message s ws message).1 = s
  | Some data => (on_message s ws message).1 = (switch (allocate s) ws (parses s) data).1.1
  end.
Proof.
  unfold on_message. destruct (JSON_parse message) as [data|]; [|reflexivity].
  destruct (switch _ _ _ _) as [[s' acts] [error|]]; reflexivity.
Qed.

Lemma dispatch_effect s ev s' acts :
  dispatch s ev = Some (s', acts) ->
  (rooms s' = rooms s /\ forall c, vars s' c = vars s c)
  \/ (ev = Connection /\ rooms s' = rooms s /\
      forall c, vars s' c = if decide (accepted s = c) then (Null, Null) else vars s c)
  \/ (exists ws message data,
        ev = Message ws message /\ JSON_parse message = Some data /\
        type_is (get (parses s) data "type") "join" = true /\
        rooms s' = add_client (ensure_room (rooms s) (get (parses s) data "roomId"))
                     (get (parses s) data "roomId") ws /\
        forall c, vars s' c =
          if decide (ws = c)
          then (get (parses s) data "roomId", get (parses s) data "clientId")
          else vars s c)
  \/ (exists ws,
        template_error (stack LeaveLog) (vars s ws).2 (vars s ws).1 <> None /\
        rooms s' = delete_client (rooms s) (vars s ws).1 ws /\
        forall c, vars s' c = vars s c)
  \/ (exists ws,
        truthy (vars s ws).1 && has (rooms s) (vars s ws).1 = true /\
        rooms s' = clean_up (delete_client (rooms s) (vars s ws).1 ws) (vars s ws).1 /\
        forall c, vars s' c = vars s c).
Proof.
  destruct ev as [|ws message|ws|ws|ws error]; cbn [dispatch].
  - intros [= <- <-]. right; left. split; [reflexivity|]. split; [reflexivity|].
    intros c. unfold vars. cbn. unfold insert, fn_insert.
    destruct (decide (accepted s = c)); reflexivity.
  - intros [= Hs].
    assert (s' = (on_message s ws message).1) as -> by (rewrite Hs; reflexivity).
    clear Hs.
    pose proof (on_message_state s ws message) as Hstate.
    destruct (JSON_parse message) as [data|] eqn:Hparse.
    2:{ left. rewrite Hstate. split; [reflexivity | intros c; reflexivity]. }
    rewrite Hstate. clear Hstate.
    destruct (switch_cases (allocate s) ws (parses s) data)
      as [-> | [[Hjoin ->] | [[obj [_ ->]] | [[_ ->] | ->]]]].
    + left. split; [reflexivity | intros c; reflexivity].
    + right; right; left. exists ws, message, data.
      destruct (join_state (allocate s) ws (parses s) data) as (Hrooms & Hsockets).
      split; [reflexivity|]. split; [assumption|]. split; [assumption|].
      split; [exact Hrooms|].
      intros c. unfold vars. rewrite Hsockets. unfold insert, fn_insert.
      destruct (decide (ws = c)); reflexivity.
    + rewrite broadcast_state. left. split; [reflexivity | intros c; reflexivity].
    + destruct (leave_state (allocate s) ws)
        as (Hsockets & [Hrooms | [(Hthrow & Hrooms) | (_ & Hguard & Hrooms)]]).
      * left. split; [exact Hrooms|]. intros c. unfold vars. rewrite Hsockets. reflexivity.
      * right; right; right; left. exists ws.
        split; [exact Hthrow|]. split; [exact Hrooms|].
        intros c. unfold vars. rewrite Hsockets. reflexivity.
      * right; right; right; right. exists ws.
        split; [exact Hguard|]. split; [exact Hrooms|].
        intros c. unfold vars. rewrite Hsockets. reflexivity.
    + left. split; [reflexivity | intros c; reflexivity].
  - intros [= <- <-]. left. split; [reflexivity|]. apply vars_set_readyState.
  - intros Hclose. apply on_close_state in Hclose. cbn zeta in Hclose.
    rewrite sockets_set_readyState in Hclose. cbn [currentRoom clientId] in Hclose.
    change (rooms (set_readyState s ws CLOSED)) with (rooms s) in Hclose.
    destruct Hclose as (Hsockets & [Hrooms | (_ & Hguard & Hrooms)]).
    + left. split; [exact Hrooms|]. intros c.
      rewrite <- (vars_set_readyState s ws CLOSED c). unfold vars. rewrite Hsockets. reflexivity.
    + right; right; right; right. exists ws. unfold vars at 1 2 3 4. cbn [fst snd].
      split; [exact Hguard|]. split; [exact Hrooms|].
      intros c. unfold vars at 1. rewrite Hsockets.
      exact (vars_set_readyState s ws CLOSED c).
  - intros [= <- <-]. left. split; [reflexivity | intros c; reflexivity].
Qed.
End Effects.

(** ** Invariants along a run *)

Section Runs.
Context `{Runtime}.
Implicit Types (s : server) (evs : list event).

Lemma run_invariant (ok : server -> event -> Prop) (P : server -> Prop) :
  (forall s ev s' acts, P s -> ok s ev -> dispatch s ev = Some (s', acts) -> P s') ->
  forall evs s s' acts, P s -> admits ok s evs -> run s evs = Some (s', acts) -> P s'.
Proof.
  intros Hstep. induction evs as [|ev rest IH]; cbn; intros s s' acts HP Hok Hrun.
  - injection Hrun as <- _. exact HP.
  - destruct Hok as [Hev Hrest].
    destruct (dispatch s ev) as [[s1 acts1]|] eqn:Hdispatch; [|discriminate].
    destruct (run s1 rest) as [[s2 acts2]|] eqn:Hrun1; [|discriminate].
    injection Hrun as <- _.
    eapply IH; [|exact Hrest|exact Hrun1].
    eapply Hstep; eassumption.
Qed.

Lemma admits_always evs : forall s, admits (fun _ _ => True) s evs.
Proof.
  induction evs as [|ev rest IH]; cbn; intros s; [exact I|].
  split; [exact I|]. destruct (dispatch s ev) as [[s1 acts1]|]; [apply IH | exact I].
Qed.

Lemma clients_of_NoDup r k : duplicate_free r -> NoDup (clients_of r k).
Proof.
  intros Hr. unfold clients_of. destruct (r !! k) as [clients|] eqn:Hk; cbn.
  - eapply Hr, Hk.
  - apply NoDup_nil_2.
Qed.

Lemma duplicate_free_joined r room ws :
  duplicate_free r -> duplicate_free (add_client (ensure_room r room) room ws).
Proof.
  intros Hr k clients. rewrite lookup_joined.
  destruct (decide (k = key_of room)); [|apply Hr].
  intros [= <-]. apply NoDup_Set_add, clients_of_NoDup, Hr.
Qed.

Lemma duplicate_free_delete_client r room ws :
  duplicate_free r -> duplicate_free (delete_client r room ws).
Proof.
  intros Hr k clients. rewrite lookup_delete_client.
  destruct (decide (k = key_of room)); [|apply Hr].
  intros [= <-]. apply NoDup_Set_delete, clients_of_NoDup, Hr.
Qed.

Lemma duplicate_free_clean_up r room :
  duplicate_free r -> duplicate_free (clean_up r room).
Proof.
  intros Hr k clients. rewrite lookup_clean_up.
  destruct (decide _); [discriminate | apply Hr].
Qed.

Lemma duplicate_free_step s ev s' acts :
  duplicate_free (rooms s) -> dispatch s ev = Some (s', acts) -> duplicate_free (rooms s').
Proof.
  intros Hs Hdispatch.
  destruct (dispatch_effect _ _ _ _ Hdispatch)
    as [[-> _] | [[_ [-> _]] | [(ws & message & data & _ & _ & _ & -> & _)
       | [(ws & _ & -> & _) | (ws & _ & -> & _)]]]].
  - exact Hs.
  - exact Hs.
  - apply duplicate_free_joined, Hs.
  - apply duplicate_free_delete_client, Hs.
  - apply duplicate_free_clean_up, duplicate_free_delete_client, Hs.
Qed.

(** Each room is a set: no socket is listed twice. *)
Lemma reachable_duplicate_free s : reachable s -> duplicate_free (rooms s).
Proof.
  intros (evs & acts & Hrun).
  refine (run_invariant (fun _ _ => True) (fun s => duplicate_free (rooms s)) _
            evs initial s acts _ (admits_always evs initial) Hrun).
  - intros s0 ev s1 acts1 Hs0 _ Hdispatch. eapply duplicate_free_step; eassumption.
  - intros k clients. cbn. rewrite lookup_empty. discriminate.
Qed.

(** *** No room is empty, as long as the log lines can be printed *)

Lemma no_empty_room_joined r room ws :
  no_empty_room r -> no_empty_room (add_client (ensure_room r room) room ws).
Proof.
  intros Hr k clients. rewrite lookup_joined.
  destruct (decide (k = key_of room)); [|apply Hr].
  intros [= <-]. apply Set_add_nonempty.
Qed.

Lemma no_empty_room_departed r room ws :
  no_empty_room r -> no_empty_room (clean_up (delete_client r room ws) room).
Proof.
  intros Hr k clients. rewrite lookup_departed.
  destruct (decide (k = key_of room)); [|apply Hr].
  destruct (decide _) as [|Hcons]; [discriminate|].
  intros [= <-]. exact Hcons.
Qed.

Lemma closures_leave_log s ws :
  closures_printable s ->
  template_error (stack LeaveLog) (clientId (sockets s ws)) (currentRoom (sockets s ws)) = None.
Proof.
  intros Hvars. destruct (Hvars ws) as [(_ & Hroom & _) (_ & Hclient & _)].
  unfold vars in Hroom, Hclient. cbn [fst snd] in Hroom, Hclient.
  unfold template_error. rewrite Hclient. exact Hroom.
Qed.

Lemma closures_close_log s ws :
  closures_printable s ->
  template_error (stack CloseLog) (clientId (sockets s ws)) (currentRoom (sockets s ws)) = None.
Proof.
  intros Hvars. destruct (Hvars ws) as [(_ & _ & Hroom) (_ & _ & Hclient)].
  unfold vars in Hroom, Hclient. cbn [fst snd] in Hroom, Hclient.
  unfold template_error. rewrite Hclient. exact Hroom.
Qed.

Lemma no_empty_room_step s ev s' acts :
  no_empty_room (rooms s) /\ closures_printable s ->
  printable s ev ->
  dispatch s ev = Some (s', acts) ->
  no_empty_room (rooms s') /\ closures_printable s'.
Proof.
  intros [Hrooms Hvars] Hev Hdispatch.
  destruct (dispatch_effect _ _ _ _ Hdispatch)
    as [[-> Hsame] | [[_ [-> Hfresh]] | [(ws & message & data & -> & Hparse & Hjoin & -> & Hset)
       | [(ws & Hthrow & _) | (ws & _ & -> & Hsame)]]]].
  - split; [exact Hrooms|]. intros c. rewrite Hsame. apply Hvars.
  - split; [exact Hrooms|]. intros c. rewrite Hfresh.
    destruct (decide _); [repeat split | apply Hvars].
  - split; [apply no_empty_room_joined, Hrooms|].
    intros c. rewrite Hset. destruct (decide _); [|apply Hvars].
    exact (Hev data Hparse Hjoin).
  - exfalso. apply Hthrow.
    destruct (Hvars ws) as [(_ & Hroom & _) (_ & Hclient & _)].
    unfold template_error. rewrite Hclient. exact Hroom.
  - split; [apply no_empty_room_departed, Hrooms|].
    intros c. rewrite Hsame. apply Hvars.
Qed.

Lemma run_no_empty_room evs s acts :
  admits printable initial evs ->
  run initial evs = Some (s, acts) ->
  no_empty_room (rooms s) /\ closures_printable s.
Proof.
  intros Hok Hrun.
  refine (run_invariant printable
            (fun s => no_empty_room (rooms s) /\ closures_printable s) _
            evs initial s acts _ Hok Hrun).
  - intros s0 ev s1 acts1. apply no_empty_room_step.
  - split; [|intros c; repeat split].
    intros k clients. cbn. rewrite lookup_empty. discriminate.
Qed.

(** *** One room per socket, as long as no socket joins from another room *)

Lemma elem_of_joined r room ws c k :
  c ∈ clients_of (add_client (ensure_room r room) room ws) k <->
  c ∈ clients_of r k \/ (c = ws /\ k = key_of room).
Proof.
  unfold clients_of at 1. rewrite lookup_joined.
  destruct (decide (k = key_of room)) as [->|Hne]; cbn.
  - rewrite elem_of_Set_add. tauto.
  - fold (clients_of r k). tauto.
Qed.

Lemma elem_of_delete_client r room ws c k :
  c ∈ clients_of (delete_client r room ws) k -> c ∈ clients_of r k.
Proof.
  unfold clients_of at 1. rewrite lookup_delete_client.
  destruct (decide (k = key_of room)) as [->|Hne]; cbn.
  - rewrite elem_of_Set_delete. tauto.
  - tauto.
Qed.

Lemma elem_of_clean_up r room c k :
  c ∈ clients_of (clean_up r room) k -> c ∈ clients_of r k.
Proof.
  unfold clients_of at 1. rewrite lookup_clean_up.
  destruct (decide _); cbn; [|tauto].
  intros Hin. inversion Hin.
Qed.

Lemma one_room_each_shrinks r r' :
  (forall c k, c ∈ clients_of r' k -> c ∈ clients_of r k) ->
  one_room_each r -> one_room_each r'.
Proof. intros Hsub Hr ws k1 k2 H1 H2. apply (Hr ws); apply Hsub; assumption. Qed.

Lemma one_room_each_step s ev s' acts :
  one_room_each (rooms s) ->
  joins_from_outside s ev ->
  dispatch s ev = Some (s', acts) ->
  one_room_each (rooms s').
Proof.
  intros Hs Hev Hdispatch.
  destruct (dispatch_effect _ _ _ _ Hdispatch)
    as [[-> _] | [[_ [-> _]] | [(ws & message & data & -> & Hparse & Hjoin & -> & _)
       | [(ws & _ & -> & _) | (ws & _ & -> & _)]]]].
  - exact Hs.
  - exact Hs.
  - specialize (Hev data Hparse Hjoin).
    intros c k1 k2. rewrite !elem_of_joined.
    intros [H1 | [-> ->]] [H2 | [Hc ->]].
    + apply (Hs c); assumption.
    + subst c. apply Hev, H1.
    + symmetry. apply Hev, H2.
    + reflexivity.
  - eapply one_room_each_shrinks; [|exact Hs].
    intros c k. apply elem_of_delete_client.
  - eapply one_room_each_shrinks; [|exact Hs].
    intros c k Hin. eapply elem_of_delete_client, elem_of_clean_up, Hin.
Qed.

End Runs.

(** ** The fan-out *)

Section Fanout.
Context `{Runtime}.
Implicit Types (s : server) (ws : nat) (data : json).

Lemma forEach_send_members sk ws obj clients client obj' :
  Send client obj' ∈ (forEach_send sk ws obj clients).1 ->
  client ∈ clients /\ client <> ws /\ readyState (sk client) = OPEN /\ obj' = obj.
Proof.
  induction clients as [|c rest IH]; cbn [forEach_send].
  - intros Hin. inversion Hin.
  - destruct (bool_decide (c <> ws)) eqn:Hne; cbn [andb].
    2:{ intros Hin. destruct (IH Hin) as (? & ? & ? & ?). repeat split; try assumption.
        by right. }
    destruct (bool_decide (readyState (sk c) = OPEN)) eqn:Hopen.
    2:{ intros Hin. destruct (IH Hin) as (? & ? & ? & ?). repeat split; try assumption.
        by right. }
    apply bool_decide_eq_true in Hne, Hopen.
    destruct (stringify_throws _ _); [intros Hin; inversion Hin|].
    destruct (send_throws _); [intros Hin; inversion Hin|].
    destruct (forEach_send sk ws obj rest) as [acts thrown]. cbn [fst] in *.
    rewrite elem_of_cons. intros [[= -> ->] | Hin].
    + repeat split; try assumption. by left.
    + destruct (IH Hin) as (? & ? & ? & ?). repeat split; try assumption. by right.
Qed.

Lemma elem_of_sent_to client obj acts :
  obj ∈ sent_to client acts <-> Send client obj ∈ acts.
Proof.
  unfold sent_to. rewrite list_elem_of_omap. split.
  - intros ([line|c obj'] & Hin & Heq); [discriminate|].
    destruct (decide (c = client)) as [->|]; [|discriminate].
    injection Heq as ->. exact Hin.
  - intros Hin. exists (Send client obj). split; [exact Hin|].
    rewrite decide_True by reflexivity. reflexivity.
Qed.

Lemma sent_to_nil client acts :
  (forall obj, Send client obj ∉ acts) -> sent_to client acts = [].
Proof.
  intros Hnone. destruct (sent_to client acts) as [|obj rest] eqn:Hsent; [reflexivity|].
  exfalso. apply (Hnone obj), elem_of_sent_to. rewrite Hsent. by left.
Qed.

(** What a relay message does: the state only counts the parse, and the
    actions are those of the walk, followed by the log line of the
    [catch] when a [send] threw. *)
Lemma on_message_relay s ws message data obj :
  JSON_parse message = Some data ->
  relay_object (parses s) data = Some obj ->
  on_message s ws message =
    (allocate s,
     let '(_, acts, thrown) := broadcast (allocate s) ws obj in
     match thrown with
     | Some error => acts ++ [Console (ErrorProcessingMessage error)]
     | None => acts
     end).
Proof.
  intros Hparse Hobj. unfold on_message. rewrite Hparse.
  rewrite (switch_relay _ _ _ _ _ Hobj).
  pose proof (broadcast_state (allocate s) ws obj) as Hstate.
  destruct (broadcast (allocate s) ws obj) as [[s' acts] [error|]];
    cbn in Hstate; subst s'; reflexivity.
Qed.

Lemma relay_sends s ws message data obj client obj' :
  JSON_parse message = Some data ->
  relay_object (parses s) data = Some obj ->
  Send client obj' ∈ (on_message s ws message).2 ->
  truthy (currentRoom (sockets s ws)) = true /\
  client ∈ members (rooms s) (currentRoom (sockets s ws)) /\
  client <> ws /\ readyState (sockets s client) = OPEN /\ obj' = obj.
Proof.
  intros Hparse Hobj. rewrite (on_message_relay _ _ _ _ _ Hparse Hobj). cbn [snd].
  unfold broadcast. cbn [allocate rooms sockets].
  destruct (truthy (currentRoom (sockets s ws))) eqn:Htruthy; cbn [andb].
  2:{ intros Hin. inversion Hin. }
  destruct (has _ _). 2:{ intros Hin. inversion Hin. }
  pose proof (forEach_send_members (sockets s) ws obj
                (members (rooms s) (currentRoom (sockets s ws))) client obj') as Hwalk.
  destruct (forEach_send _ _ _ _) as [acts [error|]]; cbn [fst] in Hwalk.
  - rewrite elem_of_app, list_elem_of_singleton.
    intros [Hin | [=]]. split; [reflexivity | apply Hwalk, Hin].
  - intros Hin. split; [reflexivity | apply Hwalk, Hin].
Qed.

Lemma relay_completes s ws message data obj clients :
  JSON_parse message = Some data ->
  relay_object (parses s) data = Some obj ->
  stringify_throws (stack RelaySend) obj = false ->
  truthy (currentRoom (sockets s ws)) = true ->
  rooms s !! key_of (currentRoom (sockets s ws)) = Some clients ->
  (on_message s ws message).2 =
    (fun client => Send client obj) <$>
      filter (fun client => client <> ws /\ readyState (sockets s client) = OPEN) clients.
Proof.
  intros Hparse Hobj Hfits Htruthy Hroom.
  rewrite (on_message_relay _ _ _ _ _ Hparse Hobj). cbn [snd].
  unfold broadcast, has, members. cbn [allocate rooms sockets].
  rewrite Htruthy, Hroom. cbn [andb default from_option id].
  rewrite bool_decide_eq_true_2 by (eexists; reflexivity).
  rewrite (forEach_send_completes _ _ _ _ Hfits). reflexivity.
Qed.


End Fanout.

(** ** Feasible runs of the examples *)

Lemma feasible_runs `{Runtime} (evs : list event) :
  forall s, feasible s evs = true -> exists s' acts, run s evs = Some (s', acts).
Proof.
  induction evs as [|ev rest IH]; cbn; intros s Hfeasible.
  - exists s, []. reflexivity.
  - apply andb_true_iff in Hfeasible as [_ Hrest].
    destruct (dispatch s ev) as [[s1 acts1]|]; [|discriminate].
    destruct (IH s1 Hrest) as (s2 & acts2 & ->).
    exists s2, (acts1 ++ acts2). reflexivity.
Qed.

Lemma state_after_run (evs : list (@event ws8)) :
  feasible initial evs = true ->
  run initial evs = Some (state_after evs, actions_of evs).
Proof.
  intros Hfeasible. unfold state_after, actions_of.
  destruct (feasible_runs evs initial Hfeasible) as (s & acts & ->). reflexivity.
Qed.

Lemma state_after_reachable (evs : list (@event ws8)) :
  feasible initial evs = true -> reachable (H := ws8) (state_after evs).
Proof.
  intros Hfeasible. exists evs, (actions_of evs). apply state_after_run, Hfeasible.
Qed.

(** * The claims *)

(** ** Relay to the open members of the room *)

(** C1, as amended.  A relay message (draw, strokeEnd, fill, clear, undo)
    from a socket whose [currentRoom] is truthy and is a key of the
    registry, carrying fields that [JSON.stringify] can serialise (none
    nested deeper than the stack allows): the object built for its type
    is sent exactly once to each member of that room other than the
    sender whose [readyState] is OPEN, at most once to any socket, and
    never to the sender. *)
Theorem relay_reaches_open_members `{Runtime} (s : server) (ws : nat) (message : raw)
    (data : json) (obj : object) (clients : list nat) :
  reachable s ->
  JSON_parse message = Some data ->
  relay_object (parses s) data = Some obj ->
  stringify_throws (stack RelaySend) obj = false ->
  truthy (currentRoom (sockets s ws)) = true ->
  rooms s !! key_of (currentRoom (sockets s ws)) = Some clients ->
  (forall client,
      client ∈ clients -> client <> ws -> readyState (sockets s client) = OPEN ->
      sent_to client (on_message s ws message).2 = [obj])
  /\ (forall client, length (sent_to client (on_message s ws message).2) <= 1)
  /\ sent_to ws (on_message s ws message).2 = [].
Proof.
  intros Hreach Hparse Hobj Hfits Htruthy Hroom.
  rewrite (relay_completes _ _ _ _ _ _ Hparse Hobj Hfits Htruthy Hroom).
  assert (NoDup (filter (fun client => client <> ws /\ readyState (sockets s client) = OPEN)
                   clients)) as Hnodup.
  { apply NoDup_filter. eapply reachable_duplicate_free; eassumption. }
  split; [|split].
  - intros client Hin Hne Hopen.
    rewrite sent_to_fmap_Send, (filter_eq_NoDup _ _ Hnodup).
    rewrite decide_True; [reflexivity|].
    apply list_elem_of_filter. tauto.
  - intros client. rewrite sent_to_fmap_Send, (filter_eq_NoDup _ _ Hnodup).
    destruct (decide _); cbn; lia.
  - rewrite sent_to_fmap_Send, (filter_eq_NoDup _ _ Hnodup).
    rewrite decide_False; [reflexivity|].
    rewrite list_elem_of_filter. tauto.
Qed.

Lemma relay_reaches_open_members_witness :
  let s := state_after (three_in_room "R1") in
  feasible initial (three_in_room "R1") = true /\
  rooms s !! KString "R1" = Some [0; 1; 2] /\
  readyState (sockets s 1) = CLOSING /\
  sent_to 2 (on_message (H := ws8) s 0 (clear_frame "c1")).2 =
    [[("type", String "clear"); ("drawerId", String "c1")]] /\
  sent_to 1 (on_message (H := ws8) s 0 (clear_frame "c1")).2 = [] /\
  sent_to 0 (on_message (H := ws8) s 0 (clear_frame "c1")).2 = [].
Proof.
  intros s.
  destruct (relay_reaches_open_members (H := ws8) s 0 (clear_frame "c1")
              (JObj [("type", JStr "clear"); ("drawerId", JStr "c1")])
              [("type", String "clear"); ("drawerId", String "c1")] [0; 1; 2])
    as (Hsent & Honce & Hself).
  - apply state_after_reachable. vm_compute. reflexivity.
  - reflexivity.
  - vm_compute. reflexivity.
  - vm_compute. reflexivity.
  - vm_compute. reflexivity.
  - vm_compute. reflexivity.
  - split; [vm_compute; reflexivity|].
    split; [vm_compute; reflexivity|].
    split; [vm_compute; reflexivity|].
    split; [apply Hsent; [repeat constructor | discriminate | vm_compute; reflexivity]|].
    split; [vm_compute; reflexivity | exact Hself].
Defined.

(** C1 as stated fails for a room whose name is falsy: both sockets are
    members of the room named by the empty string, both are open, and the
    clear of the first reaches nobody. *)
Lemma relay_in_falsy_room_reaches_nobody :
  let s := state_after (two_in_room "") in
  feasible initial (two_in_room "" ++ [says 0 (clear_frame "c1")]) = true /\
  currentRoom (sockets s 0) = String "" /\
  rooms s !! key_of (currentRoom (sockets s 0)) = Some [0; 1] /\
  readyState (sockets s 1) = OPEN /\
  (on_message (H := ws8) s 0 (clear_frame "c1")).2 = [].
Proof. vm_compute. repeat split; reflexivity. Qed.

(** ** The registry holds no empty room *)

(** C2, as amended.  Along a run whose joins carry identifiers the log
    lines can print: a key is in the registry exactly when its member set
    is not empty; a join leaves the registry as it was but for the entry
    of the joined room, which then holds the socket; and when the socket
    is the only member of the room its truthy [currentRoom] names, its
    leave message and its ['close'] event delete that entry at once. *)
Theorem registry_has_no_empty_room `{Runtime} (evs : list event) (s : server)
    (acts : list action) :
  admits printable initial evs ->
  run initial evs = Some (s, acts) ->
  (forall k, is_Some (rooms s !! k) <-> clients_of (rooms s) k <> [])
  /\ (forall ws message data,
        JSON_parse message = Some data ->
        type_is (get (parses s) data "type") "join" = true ->
        forall k,
          rooms (on_message s ws message).1 !! k =
            if decide (k = key_of (get (parses s) data "roomId"))
            then Some (Set_add ws (clients_of (rooms s) k))
            else rooms s !! k)
  /\ (forall ws message data,
        JSON_parse message = Some data ->
        type_is (get (parses s) data "type") "leave" = true ->
        truthy (currentRoom (sockets s ws)) = true ->
        rooms s !! key_of (currentRoom (sockets s ws)) = Some [ws] ->
        rooms (on_message s ws message).1 !! key_of (currentRoom (sockets s ws)) = None)
  /\ (forall ws,
        truthy (currentRoom (sockets s ws)) = true ->
        rooms s !! key_of (currentRoom (sockets s ws)) = Some [ws] ->
        exists s' acts',
          dispatch s (Close ws) = Some (s', acts') /\
          rooms s' !! key_of (currentRoom (sockets s ws)) = None).
Proof.
  intros Hok Hrun.
  destruct (run_no_empty_room evs s acts Hok Hrun) as [Hrooms Hvars].
  split; [|split; [|split]].
  - intros k. unfold clients_of. split.
    + intros [clients Hk]. rewrite Hk. cbn. eapply Hrooms, Hk.
    + destruct (rooms s !! k); [eexists; reflexivity | cbn; congruence].
  - intros ws message data Hparse Hjoin k.
    pose proof (on_message_state s ws message) as Hstate. rewrite Hparse in Hstate.
    rewrite Hstate, (switch_join _ _ _ _ Hjoin).
    destruct (join_state (allocate s) ws (parses s) data) as [-> _].
    apply lookup_joined.
  - intros ws message data Hparse Hleave Htruthy Honly.
    pose proof (on_message_state s ws message) as Hstate. rewrite Hparse in Hstate.
    rewrite Hstate, (switch_leave _ _ _ _ Hleave).
    unfold leave. cbn [allocate rooms sockets]. unfold has.
    rewrite Htruthy, Honly. cbn [andb].
    rewrite bool_decide_eq_true_2 by (eexists; reflexivity).
    change (sockets (allocate s)) with (sockets s).
    rewrite (closures_leave_log s ws Hvars). cbn [fst rooms with_rooms].
    rewrite lookup_departed, decide_True by reflexivity.
    unfold clients_of. rewrite Honly. cbn [default].
    rewrite Set_delete_only, decide_True by reflexivity. reflexivity.
  - intros ws Htruthy Honly. cbn [dispatch].
    assert (sockets (set_readyState s ws CLOSED) ws =
              {| readyState := CLOSED;
                 currentRoom := currentRoom (sockets s ws);
                 clientId := clientId (sockets s ws) |}) as Hws
      by (unfold set_readyState, with_socket; cbn; apply fn_lookup_insert).
    unfold on_close. rewrite Hws. cbn [currentRoom clientId]. unfold has.
    cbn [set_readyState with_socket rooms].
    rewrite Htruthy, Honly. cbn [andb].
    rewrite bool_decide_eq_true_2 by (eexists; reflexivity).
    rewrite (closures_close_log s ws Hvars).
    eexists _, _. split; [reflexivity|]. cbn [rooms with_rooms].
    rewrite lookup_departed, decide_True by reflexivity.
    unfold clients_of. rewrite Honly. cbn [default].
    rewrite Set_delete_only, decide_True by reflexivity. reflexivity.
Qed.

Lemma registry_has_no_empty_room_witness :
  let evs := [connects; says 0 (join_frame "R1" "c1")] in
  let s := state_after evs in
  admits (H := ws8) printable initial evs /\
  feasible initial evs = true /\
  (is_Some (rooms s !! KString "R1") <-> clients_of (rooms s) (KString "R1") <> []) /\
  rooms (on_message (H := ws8) s 1 (join_frame "R1" "c2")).1 !! KString "R1" =
    Some (Set_add 1 (clients_of (rooms s) (KString "R1"))) /\
  rooms (on_message (H := ws8) s 0 leave_frame).1 !! key_of (currentRoom (sockets s 0)) = None /\
  (exists s' acts',
      dispatch s (closes 0) = Some (s', acts') /\
      rooms s' !! key_of (currentRoom (sockets s 0)) = None).
Proof.
  intros evs s.
  assert (admits (H := ws8) printable initial evs) as Hok.
  { cbn. split; [exact I|]. split; [|exact I].
    intros data [= <-] _. split; (split; [|split]); reflexivity. }
  assert (feasible initial evs = true) as Hfeasible by (vm_compute; reflexivity).
  destruct (registry_has_no_empty_room (H := ws8) evs s (actions_of evs) Hok
              (state_after_run evs Hfeasible)) as (Hiff & Hjoin & Hleave & Hclose).
  split; [exact Hok|]. split; [exact Hfeasible|].
  split; [apply Hiff|].
  split.
  { apply (Hjoin 1 (join_frame "R1" "c2")
             (JObj [("type", JStr "join"); ("roomId", JStr "R1"); ("clientId", JStr "c2")])
             eq_refl eq_refl (KString "R1")). }
  split.
  { apply (Hleave 0 leave_frame (JObj [("type", JStr "leave")]) eq_refl eq_refl);
      vm_compute; reflexivity. }
  apply Hclose; vm_compute; reflexivity.
Defined.

(** C2 as stated fails when a socket has joined a second room: socket 0
    is the only member of R1, its ['close'] event is processed, and the
    entry of R1 is still there, holding the closed socket. *)
Lemma closed_socket_stays_in_old_room :
  let before := state_after joins_twice in
  let after := state_after (joins_twice ++ [closes 0]) in
  feasible initial (joins_twice ++ [closes 0]) = true /\
  rooms before !! KString "R1" = Some [0] /\
  readyState (sockets after 0) = CLOSED /\
  rooms after !! KString "R1" = Some [0].
Proof. vm_compute. repeat split; reflexivity. Qed.

(** Why the joins must be printable for the registry to hold no empty
    room: the log line of [case 'leave'] stands before the clean-up, so
    when it throws the empty room stays in the registry. *)
Remark unprintable_client_leaves_empty_room :
  let evs := [connects; says 0 join_frame_with_unprintable_client; says 0 leave_frame] in
  feasible initial evs = true /\
  rooms (state_after evs) !! KString "R1" = Some [] /\
  actions_of evs =
    [Console NewClientConnected;
     Console (ErrorProcessingMessage TypeError);
     Console (ErrorProcessingMessage TypeError)].
Proof. vm_compute. repeat split; reflexivity. Qed.

(** The same with a [clientId] nested too deep: the join registers the
    socket and throws a RangeError at its log line, so no confirmation
    is sent; the leave removes the socket and throws at its own log
    line, and the empty room stays. *)
Remark deep_client_leaves_empty_room :
  let evs := [connects; says 0 join_frame_with_deep_client; says 0 leave_frame] in
  feasible initial evs = true /\
  rooms (state_after evs) !! KString "R1" = Some [] /\
  actions_of evs =
    [Console NewClientConnected;
     Console (ErrorProcessingMessage RangeError);
     Console (ErrorProcessingMessage RangeError)].
Proof. vm_compute. repeat split; reflexivity. Qed.

(** ** After a leave *)

(** C3 fails on the code.  [case 'leave'] never assigns [currentRoom]:
    whatever the state, every socket keeps the room it had.  So when
    sockets 0 and 1 have joined R1 and socket 0 leaves, it is no longer a
    member, but its next clear, sent without another join, still passes
    the guard and is delivered to socket 1. *)
Theorem left_socket_still_relays :
  (forall (platform : Runtime) (s : server) (ws : nat),
      sockets (leave s ws).1.1 = sockets s)
  /\
  let s := state_after (two_in_room "R1" ++ [says 0 leave_frame]) in
  feasible initial (two_in_room "R1" ++ [says 0 leave_frame; says 0 (clear_frame "c1")])
    = true /\
  clients_of (rooms s) (KString "R1") = [1] /\
  currentRoom (sockets s 0) = String "R1" /\
  (on_message (H := ws8) s 0 (clear_frame "c1")).2 =
    [Send 1 [("type", String "clear"); ("drawerId", String "c1")]].
Proof.
  split.
  - intros platform s ws. apply leave_state.
  - vm_compute. repeat split; reflexivity.
Qed.

(** ** One room per socket *)

(** C4, as amended.  Along a run in which every join comes from a socket
    that is a member of no other room, no socket is in the member sets
    of two keys.  (A join from a socket that is still a member elsewhere
    leaves that membership in place.) *)
Theorem one_room_when_joining_from_outside `{Runtime} (evs : list event) (s : server)
    (acts : list action) :
  admits joins_from_outside initial evs ->
  run initial evs = Some (s, acts) ->
  forall ws k1 k2,
    ws ∈ clients_of (rooms s) k1 -> ws ∈ clients_of (rooms s) k2 -> k1 = k2.
Proof.
  intros Hok Hrun.
  refine (run_invariant joins_from_outside (fun s => one_room_each (rooms s)) _
            evs initial s acts _ Hok Hrun).
  - intros s0 ev s1 acts1. apply one_room_each_step.
  - intros ws k1 k2 Hin. unfold clients_of in Hin. cbn in Hin.
    rewrite lookup_empty in Hin. inversion Hin.
Qed.

Ltac in_empty_registry Hin :=
  unfold clients_of in Hin;
  match type of Hin with
  | context [rooms ?s] =>
      replace (rooms s) with (∅ : gmap key (list nat)) in Hin by (vm_compute; reflexivity)
  end;
  rewrite lookup_empty in Hin; inversion Hin.

Lemma one_room_when_joining_from_outside_witness :
  admits (H := ws8) joins_from_outside initial leaves_then_joins /\
  feasible initial leaves_then_joins = true /\
  forall k1 k2,
    0 ∈ clients_of (rooms (state_after leaves_then_joins)) k1 ->
    0 ∈ clients_of (rooms (state_after leaves_then_joins)) k2 -> k1 = k2.
Proof.
  assert (admits (H := ws8) joins_from_outside initial leaves_then_joins) as Hok.
  { unfold leaves_then_joins. cbn [admits dispatch says connects].
    split; [exact I|].
    split; [intros data _ _ k Hin; in_empty_registry Hin|].
    split; [intros data [= <-] Hjoin; discriminate Hjoin|].
    split; [intros data _ _ k Hin; in_empty_registry Hin | exact I]. }
  assert (feasible initial leaves_then_joins = true) as Hfeasible by (vm_compute; reflexivity).
  split; [exact Hok|]. split; [exact Hfeasible|].
  exact (one_room_when_joining_from_outside (H := ws8) leaves_then_joins
           (state_after leaves_then_joins) (actions_of leaves_then_joins)
           Hok (state_after_run leaves_then_joins Hfeasible) 0).
Defined.

(** C4 as stated fails: after joining R1 and then R2, socket 0 is in the
    member sets of both. *)
Lemma socket_in_two_rooms :
  let s := state_after joins_twice in
  feasible initial joins_twice = true /\
  clients_of (rooms s) (KString "R1") = [0] /\
  clients_of (rooms s) (KString "R2") = [0] /\
  KString "R1" <> KString "R2".
Proof. vm_compute. repeat split; try reflexivity. discriminate. Qed.

(** ** The fan-out stays in the room *)

Lemma two_rooms_apart : one_room_each (rooms (state_after two_rooms)).
Proof.
  replace (rooms (state_after two_rooms))
    with (<[KString "R2" := [2]]> (<[KString "R1" := [0; 1]]> (∅ : gmap key (list nat))))
    by (vm_compute; reflexivity).
  assert (forall ws k,
             ws ∈ clients_of (<[KString "R2" := [2]]>
                                (<[KString "R1" := [0; 1]]> (∅ : gmap key (list nat)))) k ->
             k = if decide (ws = 2) then KString "R2" else KString "R1") as Hroom.
  { intros ws k. unfold clients_of.
    destruct (decide (k = KString "R2")) as [->|Hne2].
    - rewrite lookup_insert_eq. cbn. rewrite list_elem_of_singleton. intros ->. reflexivity.
    - rewrite lookup_insert_ne by congruence.
      destruct (decide (k = KString "R1")) as [->|Hne1].
      + rewrite lookup_insert_eq. cbn. rewrite !elem_of_cons.
        intros [-> | [-> | Hin]]; [reflexivity | reflexivity | inversion Hin].
      + rewrite lookup_insert_ne by congruence. rewrite lookup_empty. cbn.
        intros Hin. inversion Hin. }
  intros ws k1 k2 H1 H2. rewrite (Hroom ws k1 H1), (Hroom ws k2 H2). reflexivity.
Qed.

(** C5, as amended.  Every recipient of the fan-out of a relay message is
    a member of the room the sender's [currentRoom] names, and a socket
    that is not a member of that room is sent nothing; so as long as no
    socket is in the member sets of two keys, no member of another room
    is sent anything. *)
Theorem fanout_stays_in_room `{Runtime} (s : server) (ws : nat) (message : raw)
    (data : json) (obj : object) :
  JSON_parse message = Some data ->
  relay_object (parses s) data = Some obj ->
  (forall client obj',
      Send client obj' ∈ (on_message s ws message).2 ->
      client ∈ members (rooms s) (currentRoom (sockets s ws)))
  /\ (forall client,
        client ∉ members (rooms s) (currentRoom (sockets s ws)) ->
        sent_to client (on_message s ws message).2 = [])
  /\ (one_room_each (rooms s) ->
      forall client k,
        k <> key_of (currentRoom (sockets s ws)) ->
        client ∈ clients_of (rooms s) k ->
        sent_to client (on_message s ws message).2 = []).
Proof.
  intros Hparse Hobj.
  assert (forall client obj',
             Send client obj' ∈ (on_message s ws message).2 ->
             client ∈ members (rooms s) (currentRoom (sockets s ws))) as Hmember.
  { intros client obj' Hin.
    destruct (relay_sends _ _ _ _ _ _ _ Hparse Hobj Hin) as (_ & Hclient & _).
    exact Hclient. }
  assert (forall client,
             client ∉ members (rooms s) (currentRoom (sockets s ws)) ->
             sent_to client (on_message s ws message).2 = []) as Hout.
  { intros client Hout. apply sent_to_nil. intros obj' Hin.
    apply Hout. eapply Hmember, Hin. }
  split; [exact Hmember|]. split; [exact Hout|].
  intros Hone client k Hk Hin. apply Hout. intros Hhere.
  apply Hk. exact (Hone client _ _ Hin Hhere).
Qed.

Lemma fanout_stays_in_room_witness :
  let s := state_after two_rooms in
  feasible initial two_rooms = true /\
  members (rooms s) (currentRoom (sockets s 0)) = [0; 1] /\
  clients_of (rooms s) (KString "R2") = [2] /\
  sent_to 2 (on_message (H := ws8) s 0 (clear_frame "c1")).2 = [].
Proof.
  intros s.
  destruct (fanout_stays_in_room (H := ws8) s 0 (clear_frame "c1")
              (JObj [("type", JStr "clear"); ("drawerId", JStr "c1")])
              [("type", String "clear"); ("drawerId", String "c1")] eq_refl eq_refl)
    as (_ & _ & Hnone).
  split; [vm_compute; reflexivity|].
  split; [vm_compute; reflexivity|].
  split; [vm_compute; reflexivity|].
  apply (Hnone two_rooms_apart 2 (KString "R2")).
  - vm_compute. discriminate.
  - replace (clients_of (rooms s) (KString "R2")) with [2] by (vm_compute; reflexivity).
    repeat constructor.
Defined.

(** C5 as stated fails when the recipient has joined another room since:
    sockets 0 and 1 join R1, then socket 1 joins R2.  Socket 1 is a
    member of R2, the room its own [currentRoom] names, and the clear
    that socket 0 relays in R1 is still sent to it. *)
Lemma member_of_other_room_gets_relay :
  let s := state_after one_moves_on in
  feasible initial (one_moves_on ++ [says 0 (clear_frame "c1")]) = true /\
  currentRoom (sockets s 0) = String "R1" /\
  currentRoom (sockets s 1) = String "R2" /\
  clients_of (rooms s) (KString "R2") = [1] /\
  (on_message (H := ws8) s 0 (clear_frame "c1")).2 =
    [Send 1 [("type", String "clear"); ("drawerId", String "c1")]].
Proof. vm_compute. repeat split; reflexivity. Qed.

(** ** When a send fails *)




(** ** Frames that do not parse *)

(** C7.  A frame on which [JSON.parse] throws leaves the whole state as it
    was (the registry, both variables and the socket of every connection,
    so that the connection stays open) and does nothing but log the
    error; the next message of the connection is handled as if the frame
    had never come. *)
Theorem malformed_frame_is_dropped `{Runtime} (s : server) (ws : nat) (message : raw) :
  JSON_parse message = None ->
  on_message s ws message = (s, [Console (ErrorProcessingMessage SyntaxError)])
  /\ forall next, on_message (on_message s ws message).1 ws next = on_message s ws next.
Proof.
  intros Hparse.
  assert (on_message s ws message = (s, [Console (ErrorProcessingMessage SyntaxError)])) as Hdrop
    by (unfold on_message; rewrite Hparse; reflexivity).
  split; [exact Hdrop|]. intros next. rewrite Hdrop. reflexivity.
Qed.

Lemma malformed_frame_is_dropped_witness :
  let s := state_after (two_in_room "R1") in
  JSON_parse (Runtime := ws8) None = None /\
  on_message (H := ws8) s 0 None = (s, [Console (ErrorProcessingMessage SyntaxError)]) /\
  readyState (sockets (on_message (H := ws8) s 0 None).1 0) = OPEN.
Proof.
  intros s.
  destruct (malformed_frame_is_dropped (H := ws8) s 0 None eq_refl) as [Hdrop _].
  split; [reflexivity|]. split; [exact Hdrop|].
  rewrite Hdrop. vm_compute. reflexivity.
Defined.

(** ** Relay without a room *)

(** C8.  A relay message from a socket whose [currentRoom] is not set
    ([null] since the connection was accepted, or any other falsy value)
    sends nothing, logs no error, and leaves the registry and every
    connection as they were. *)
Theorem relay_without_room_is_ignored `{Runtime} (s : server) (ws : nat) (message : raw)
    (data : json) (obj : object) :
  JSON_parse message = Some data ->
  relay_object (parses s) data = Some obj ->
  truthy (currentRoom (sockets s ws)) = false ->
  (on_message s ws message).2 = []
  /\ rooms (on_message s ws message).1 = rooms s
  /\ sockets (on_message s ws message).1 = sockets s.
Proof.
  intros Hparse Hobj Hfalsy.
  rewrite (on_message_relay _ _ _ _ _ Hparse Hobj).
  rewrite broadcast_not_joined by exact Hfalsy.
  repeat split; reflexivity.
Qed.

Lemma relay_without_room_is_ignored_witness :
  let s := state_after [connects] in
  currentRoom (sockets s 0) = Null /\
  (on_message (H := ws8) s 0 draw_frame).2 = [] /\
  rooms (on_message (H := ws8) s 0 draw_frame).1 = rooms s /\
  sockets (on_message (H := ws8) s 0 draw_frame).1 = sockets s.
Proof.
  intros s. split; [reflexivity|].
  refine (relay_without_room_is_ignored (H := ws8) s 0 draw_frame _ _ eq_refl eq_refl eq_refl).
Defined.

(** ** The fields of a relayed object *)

Ltac relay_case t fields Htype Hobj :=
  apply type_is_String in Htype; injection Hobj as <-; exists t, fields;
  split; [repeat constructor | split; [exact Htype | reflexivity]].

Lemma relay_object_shape `{Runtime} (serial : nat) (data : json) (obj : object) :
  relay_object serial data = Some obj ->
  exists t fields,
    (t, fields) ∈ enumerated_fields /\
    get serial data "type" = String t /\
    obj = ("type", String t) :: ((fun name => (name, get serial data name)) <$> fields).
Proof.
  unfold relay_object. cbn zeta. intros Hobj.
  destruct (type_is (get serial data "type") "draw") eqn:Hdraw.
  { relay_case "draw" ["x"; "y"; "prevX"; "prevY"; "color"; "lineWidth"; "drawerId"]
      Hdraw Hobj. }
  destruct (type_is (get serial data "type") "strokeEnd") eqn:Hend.
  { relay_case "strokeEnd" ["drawerId"] Hend Hobj. }
  destruct (type_is (get serial data "type") "fill") eqn:Hfill.
  { relay_case "fill" ["x"; "y"; "color"; "drawerId"] Hfill Hobj. }
  destruct (type_is (get serial data "type") "clear") eqn:Hclear.
  { relay_case "clear" ["drawerId"] Hclear Hobj. }
  destruct (type_is (get serial data "type") "undo") eqn:Hundo; [|discriminate].
  relay_case "undo" ["drawerId"] Hundo Hobj.
Qed.

(** C9, as amended.  The object relayed for a message of a relay type is
    built from the fields enumerated for that type and from nothing
    else: [type], then each enumerated field with the value the message
    has for it, [undefined] when the message lacks it, in which case the
    serialised object has no such property.  Any other field of the
    message is left out.  The message is not rejected for a missing or
    an unknown field: it is fanned out like any other. *)
Theorem relayed_object_has_enumerated_fields `{Runtime} (serial : nat) (data : json)
    (obj : object) :
  relay_object serial data = Some obj ->
  (exists t fields,
      (t, fields) ∈ enumerated_fields /\
      get serial data "type" = String t /\
      obj = ("type", String t) :: ((fun name => (name, get serial data name)) <$> fields) /\
      forall name, name ∈ obj.*1 -> name = "type" \/ name ∈ fields)
  /\ (forall name,
        name <> "type" -> get serial data name = Undefined ->
        name ∉ stringified_properties obj)
  /\ (forall s ws, switch s ws serial data = broadcast s ws obj).
Proof.
  intros Hobj.
  destruct (relay_object_shape serial data obj Hobj) as (t & fields & Hfields & Htype & ->).
  split; [|split].
  - exists t, fields. repeat split; try assumption.
    intros name. rewrite fmap_cons, elem_of_cons. cbn [fst].
    rewrite <- list_fmap_compose, list_fmap_id. tauto.
  - intros name Hname Habsent. unfold stringified_properties.
    rewrite list_elem_of_fmap. intros ([name' v] & -> & Hin).
    apply list_elem_of_filter in Hin as [Hdefined Hin]. cbn [fst snd] in *.
    apply elem_of_cons in Hin as [[= -> ->] | Hin]; [congruence|].
    apply list_elem_of_fmap in Hin as (field & [= -> ->] & _).
    rewrite Habsent in Hdefined. discriminate.
  - intros s ws. apply switch_relay, Hobj.
Qed.

Lemma relayed_object_has_enumerated_fields_witness :
  relay_object 2 (JObj [("type", JStr "draw");
                        ("x", JNum (S754_finite false 5 1)); ("y", JNum (S754_finite false 5 2));
                        ("drawerId", JStr "c1"); ("pressure", JNum (S754_finite false 3 0))])
    = Some [("type", String "draw");
            ("x", Number (S754_finite false 5 1)); ("y", Number (S754_finite false 5 2));
            ("prevX", Undefined); ("prevY", Undefined); ("color", Undefined);
            ("lineWidth", Undefined); ("drawerId", String "c1")] /\
  "color" ∉ stringified_properties
              [("type", String "draw");
               ("x", Number (S754_finite false 5 1)); ("y", Number (S754_finite false 5 2));
               ("prevX", Undefined); ("prevY", Undefined); ("color", Undefined);
               ("lineWidth", Undefined); ("drawerId", String "c1")].
Proof.
  split; [reflexivity|].
  refine (proj1 (proj2 (relayed_object_has_enumerated_fields (H := ws8) 2
            (JObj [("type", JStr "draw");
                   ("x", JNum (S754_finite false 5 1)); ("y", JNum (S754_finite false 5 2));
                   ("drawerId", JStr "c1"); ("pressure", JNum (S754_finite false 3 0))])
            _ eq_refl))
            "color" _ eq_refl).
  discriminate.
Defined.

(** C9 as stated fails: the draw of socket 0 carries a field [pressure]
    that is not enumerated for its type, and the object sent to socket 1
    has no such property. *)
Lemma unknown_field_is_not_relayed :
  let s := state_after (two_in_room "R1") in
  feasible initial (two_in_room "R1" ++ [says 0 draw_frame]) = true /\
  get (parses s) (JObj [("type", JStr "draw");
                        ("x", JNum (S754_finite false 5 1)); ("y", JNum (S754_finite false 5 2));
                        ("drawerId", JStr "c1"); ("pressure", JNum (S754_finite false 3 0))])
    "pressure" = Number (S754_finite false 3 0) /\
  (on_message (H := ws8) s 0 draw_frame).2 =
    [Send 1 [("type", String "draw");
             ("x", Number (S754_finite false 5 1)); ("y", Number (S754_finite false 5 2));
             ("prevX", Undefined); ("prevY", Undefined); ("color", Undefined);
             ("lineWidth", Undefined); ("drawerId", String "c1")]].
Proof. vm_compute. repeat split; reflexivity. Qed.

(** ** A join without a room *)

(** C10, as amended.  A join message without [roomId], from an open
    socket: [currentRoom] becomes [undefined], [clientId] is taken as it
    is, and the registry gets an entry under the key [undefined] that
    holds the socket; nothing is checked.  When the log line can print
    the [clientId], the handler logs the join and sends one
    confirmation, to the sender.  When it cannot, the log line throws
    after the registry is updated: the [catch] logs the error and no
    confirmation is sent. *)
Theorem join_without_roomId `{Runtime} (s : server) (ws : nat) (message : raw)
    (data : json) :
  readyState (sockets s ws) = OPEN ->
  JSON_parse message = Some data ->
  type_is (get (parses s) data "type") "join" = true ->
  get (parses s) data "roomId" = Undefined ->
  currentRoom (sockets (on_message s ws message).1 ws) = Undefined
  /\ clientId (sockets (on_message s ws message).1 ws) = get (parses s) data "clientId"
  /\ (exists clients,
        rooms (on_message s ws message).1 !! KUndefined = Some clients /\ ws ∈ clients)
  /\ (on_message s ws message).2 =
       match to_string_error (stack JoinLog) (get (parses s) data "clientId") with
       | None =>
           [Console (ClientJoinedRoom (get (parses s) data "clientId") Undefined);
            Send ws [("type", String "joined"); ("roomId", Undefined)]]
       | Some error => [Console (ErrorProcessingMessage error)]
       end.
Proof.
  intros Hopen Hparse Hjoin Hroom.
  unfold on_message. rewrite Hparse, (switch_join _ _ _ _ Hjoin).
  unfold join, template_error. cbn [allocate rooms sockets].
  rewrite Hroom, Hopen, send_returns_when_open.
  destruct (to_string_error _ _) as [error|];
    cbn [to_string_error stringify_throws existsb snd orb fst];
    cbn [with_rooms with_socket rooms sockets];
    rewrite fn_lookup_insert; cbn [currentRoom clientId].
  all: repeat split.
  all: exists (Set_add ws (clients_of (rooms s) KUndefined)); split;
    [rewrite lookup_joined, decide_True by reflexivity; reflexivity
    |apply elem_of_Set_add; right; reflexivity].
Qed.

Lemma join_without_roomId_witness :
  let s := state_after [connects] in
  readyState (sockets s 0) = OPEN /\
  currentRoom (sockets (on_message (H := ws8) s 0 join_frame_without_room).1 0) = Undefined /\
  rooms (on_message (H := ws8) s 0 join_frame_without_room).1 !! KUndefined = Some [0] /\
  (on_message (H := ws8) s 0 join_frame_without_room).2 =
    [Console (ClientJoinedRoom (String "c1") Undefined);
     Send 0 [("type", String "joined"); ("roomId", Undefined)]].
Proof.
  intros s.
  destruct (join_without_roomId (H := ws8) s 0 join_frame_without_room
              (JObj [("type", JStr "join"); ("clientId", JStr "c1")])
              eq_refl eq_refl eq_refl eq_refl)
    as (Hroom & _ & _ & Hacts).
  split; [reflexivity|].
  split; [exact Hroom|].
  split; [vm_compute; reflexivity | exact Hacts].
Defined.

(** C10 as stated fails for a [clientId] that has a [toString] property
    of its own: the join without [roomId] puts the socket in the room
    under the key [undefined], then the log line throws a TypeError,
    which the [catch] logs, and no confirmation is sent. *)
Lemma join_without_roomId_can_throw :
  let s := state_after [connects] in
  let joined := on_message (H := ws8) s 0 join_frame_without_room_unprintable in
  feasible initial [connects; says 0 join_frame_without_room_unprintable] = true /\
  readyState (sockets s 0) = OPEN /\
  rooms joined.1 !! KUndefined = Some [0] /\
  joined.2 = [Console (ErrorProcessingMessage TypeError)] /\
  sent_to 0 joined.2 = [].
Proof. vm_compute. repeat split; reflexivity. Qed.

(** * Further properties of the handlers *)

(** ** Messages without a case *)

(** A message that parses but whose [type] is none of the seven handled
    ones does nothing: no send, no log, and the state only counts the
    parse.  The one exception is [null], on which reading [type] throws:
    the error is logged and the state is likewise untouched. *)
Theorem unhandled_message_is_ignored `{Runtime} (s : server) (ws : nat) (message : raw)
    (data : json) :
  JSON_parse message = Some data ->
  (forall name, name ∈ handled_types -> type_is (get (parses s) data "type") name = false) ->
  on_message s ws message =
    (allocate s,
     match data with
     | JNull => [Console (ErrorProcessingMessage TypeError)]
     | _ => []
     end).
Proof.
  intros Hparse Hnone. unfold on_message. rewrite Hparse.
  assert (data = JNull \/ data <> JNull) as [->|Hnull]
    by (destruct data; [left; reflexivity | right; discriminate..]).
  { reflexivity. }
  rewrite switch_not_null by exact Hnull. cbn zeta.
  rewrite !Hnone by (unfold handled_types; repeat constructor).
  destruct data; [congruence | reflexivity..].
Qed.

Lemma unhandled_message_is_ignored_witness :
  let s := state_after (two_in_room "R1") in
  on_message (H := ws8) s 0 chat_frame = (allocate s, []) /\
  on_message (H := ws8) s 0 (Some JNull) =
    (allocate s, [Console (ErrorProcessingMessage TypeError)]).
Proof.
  intros s. split.
  - refine (unhandled_message_is_ignored (H := ws8) s 0 chat_frame
              (JObj [("type", JStr "chat"); ("text", JStr "hi")]) eq_refl _).
    intros name Hin. apply list_elem_of_In in Hin. cbn in Hin.
    destruct Hin as [<- | [<- | [<- | [<- | [<- | [<- | [<- | []]]]]]]]; reflexivity.
  - refine (unhandled_message_is_ignored (H := ws8) s 0 (Some JNull) JNull eq_refl _).
    intros name _. reflexivity.
Defined.

(** ** What a relay leaves alone *)

(** A relay message never changes the registry or any connection: no
    member is added, moved or evicted by a fan-out, whether its guard
    passes or not and whatever the sockets of the recipients are like. *)
Theorem relay_changes_nothing `{Runtime} (s : server) (ws : nat) (message : raw)
    (data : json) (obj : object) :
  JSON_parse message = Some data ->
  relay_object (parses s) data = Some obj ->
  rooms (on_message s ws message).1 = rooms s
  /\ sockets (on_message s ws message).1 = sockets s
  /\ accepted (on_message s ws message).1 = accepted s.
Proof.
  intros Hparse Hobj. rewrite (on_message_relay _ _ _ _ _ Hparse Hobj).
  repeat split; reflexivity.
Qed.

Lemma relay_changes_nothing_witness :
  let s := state_after (three_in_room "R1") in
  rooms (on_message (H := ws8) s 0 (clear_frame "c1")).1 = rooms s /\
  sockets (on_message (H := ws8) s 0 (clear_frame "c1")).1 = sockets s /\
  accepted (on_message (H := ws8) s 0 (clear_frame "c1")).1 = accepted s.
Proof.
  intros s.
  exact (relay_changes_nothing (H := ws8) s 0 (clear_frame "c1")
           (JObj [("type", JStr "clear"); ("drawerId", JStr "c1")])
           [("type", String "clear"); ("drawerId", String "c1")] eq_refl eq_refl).
Defined.

(** A relay message is never sent to a socket whose [readyState] is not
    OPEN, member of the room or not: a closing or closed socket that is
    still listed in a room is passed over. *)
Theorem relay_skips_sockets_not_open `{Runtime} (s : server) (ws : nat) (message : raw)
    (data : json) (obj : object) (client : nat) :
  JSON_parse message = Some data ->
  relay_object (parses s) data = Some obj ->
  readyState (sockets s client) <> OPEN ->
  sent_to client (on_message s ws message).2 = [].
Proof.
  intros Hparse Hobj Hclosed. apply sent_to_nil. intros obj' Hin.
  destruct (relay_sends _ _ _ _ _ _ _ Hparse Hobj Hin) as (_ & _ & _ & Hopen & _).
  contradiction.
Qed.

Lemma relay_skips_sockets_not_open_witness :
  let s := state_after (three_in_room "R1") in
  readyState (sockets s 1) = CLOSING /\
  members (rooms s) (currentRoom (sockets s 0)) = [0; 1; 2] /\
  sent_to 1 (on_message (H := ws8) s 0 (clear_frame "c1")).2 = [].
Proof.
  intros s.
  assert (readyState (sockets s 1) = CLOSING) as Hstate by (vm_compute; reflexivity).
  split; [exact Hstate|]. split; [vm_compute; reflexivity|].
  refine (relay_skips_sockets_not_open (H := ws8) s 0 (clear_frame "c1")
            (JObj [("type", JStr "clear"); ("drawerId", JStr "c1")])
            [("type", String "clear"); ("drawerId", String "c1")] 1 eq_refl eq_refl _).
  rewrite Hstate. discriminate.
Defined.

(** When the guard of a relay case passes and [JSON.stringify] can
    serialise the object, what the handler does is exactly one [send] of
    the object per open member other than the sender, in the order of
    the member set (the order of joining), and nothing else: no log
    line, no send to anyone else. *)
Theorem relay_sends_in_member_order `{Runtime} (s : server) (ws : nat) (message : raw)
    (data : json) (obj : object) :
  JSON_parse message = Some data ->
  relay_object (parses s) data = Some obj ->
  stringify_throws (stack RelaySend) obj = false ->
  truthy (currentRoom (sockets s ws)) = true ->
  has (rooms s) (currentRoom (sockets s ws)) = true ->
  (on_message s ws message).2 =
    (fun client => Send client obj) <$>
      filter (fun client => client <> ws /\ readyState (sockets s client) = OPEN)
        (members (rooms s) (currentRoom (sockets s ws))).
Proof.
  intros Hparse Hobj Hfits Htruthy Hhas.
  apply bool_decide_eq_true in Hhas as [clients Hroom].
  unfold members. rewrite Hroom. cbn [default from_option id].
  exact (relay_completes _ _ _ _ _ _ Hparse Hobj Hfits Htruthy Hroom).
Qed.

Lemma relay_sends_in_member_order_witness :
  let s := state_after three_open in
  members (rooms s) (currentRoom (sockets s 0)) = [0; 1; 2] /\
  (on_message (H := ws8) s 0 (clear_frame "c1")).2 =
    [Send 1 [("type", String "clear"); ("drawerId", String "c1")];
     Send 2 [("type", String "clear"); ("drawerId", String "c1")]].
Proof.
  intros s. split; [vm_compute; reflexivity|].
  rewrite (relay_sends_in_member_order (H := ws8) s 0 (clear_frame "c1")
             (JObj [("type", JStr "clear"); ("drawerId", JStr "c1")])
             [("type", String "clear"); ("drawerId", String "c1")] eq_refl eq_refl eq_refl);
    vm_compute; reflexivity.
Defined.

(** ** What a join does *)

Section Joins.
Context `{Runtime}.
Implicit Types (s : server) (ws : nat) (data : json).

Lemma on_message_join s ws message data :
  JSON_parse message = Some data ->
  type_is (get (parses s) data "type") "join" = true ->
  on_message s ws message =
    let '(s', acts, thrown) := join (allocate s) ws (parses s) data in
    match thrown with
    | Some error => (s', acts ++ [Console (ErrorProcessingMessage error)])
    | None => (s', acts)
    end.
Proof.
  intros Hparse Hjoin. unfold on_message.
  rewrite Hparse, (switch_join _ _ _ _ Hjoin). reflexivity.
Qed.

Lemma on_message_join_state s ws message data :
  JSON_parse message = Some data ->
  type_is (get (parses s) data "type") "join" = true ->
  rooms (on_message s ws message).1 =
    add_client (ensure_room (rooms s) (get (parses s) data "roomId"))
      (get (parses s) data "roomId") ws
  /\ sockets (on_message s ws message).1 =
       <[ws := {| readyState := readyState (sockets s ws);
                  currentRoom := get (parses s) data "roomId";
                  clientId := get (parses s) data "clientId" |}]> (sockets s)
  /\ parses (on_message s ws message).1 = S (parses s).
Proof.
  intros Hparse Hjoin.
  pose proof (on_message_state s ws message) as Hstate. rewrite Hparse in Hstate.
  rewrite Hstate, (switch_join _ _ _ _ Hjoin).
  destruct (join_state (allocate s) ws (parses s) data) as [-> ->].
  split; [reflexivity|]. split; [reflexivity|].
  unfold join. destruct (template_error _ _ _); [reflexivity|].
  destruct (stringify_throws _ _); [reflexivity|].
  destruct (send_throws _); reflexivity.
Qed.

End Joins.

(** A join takes effect whether or not its log line or its confirmation
    goes through: the closure of the sender holds the [roomId] and the
    [clientId] of the message as they came, its socket is untouched, no
    other connection changes, and the registry gains the sender in the
    joined room and loses nothing.  A sender new to the room is listed
    last. *)
Theorem join_takes_effect `{Runtime} (s : server) (ws : nat) (message : raw) (data : json) :
  JSON_parse message = Some data ->
  type_is (get (parses s) data "type") "join" = true ->
  sockets (on_message s ws message).1 ws =
    {| readyState := readyState (sockets s ws);
       currentRoom := get (parses s) data "roomId";
       clientId := get (parses s) data "clientId" |}
  /\ (forall c, c <> ws -> sockets (on_message s ws message).1 c = sockets s c)
  /\ (forall c k,
        c ∈ clients_of (rooms (on_message s ws message).1) k <->
        c ∈ clients_of (rooms s) k \/
        (c = ws /\ k = key_of (get (parses s) data "roomId")))
  /\ (ws ∉ clients_of (rooms s) (key_of (get (parses s) data "roomId")) ->
      clients_of (rooms (on_message s ws message).1) (key_of (get (parses s) data "roomId")) =
        clients_of (rooms s) (key_of (get (parses s) data "roomId")) ++ [ws]).
Proof.
  intros Hparse Hjoin.
  destruct (on_message_join_state s ws message data Hparse Hjoin) as (-> & -> & _).
  split; [apply fn_lookup_insert|].
  split; [intros c Hne; apply fn_lookup_insert_ne; congruence|].
  split; [intros c k; apply elem_of_joined|].
  intros Hnew. unfold clients_of at 1.
  rewrite lookup_joined, decide_True by reflexivity. cbn [default from_option id].
  unfold Set_add. rewrite decide_False by exact Hnew. reflexivity.
Qed.

Lemma join_takes_effect_witness :
  let s := state_after (two_in_room "R1") in
  let s' := (on_message (H := ws8) s 1 (join_frame "R2" "c2")).1 in
  currentRoom (sockets s' 1) = String "R2" /\
  sockets s' 0 = sockets s 0 /\
  1 ∈ clients_of (rooms s') (KString "R1") /\
  clients_of (rooms s') (KString "R2") = clients_of (rooms s) (KString "R2") ++ [1].
Proof.
  intros s s'.
  destruct (join_takes_effect (H := ws8) s 1 (join_frame "R2" "c2")
              (JObj [("type", JStr "join"); ("roomId", JStr "R2"); ("clientId", JStr "c2")])
              eq_refl eq_refl) as (Hws & Hothers & Hmembers & Hlast).
  split; [exact (f_equal currentRoom Hws)|].
  split; [apply Hothers; discriminate|].
  split; [apply (Hmembers 1 (KString "R1")); left; vm_compute; repeat constructor|].
  apply Hlast. vm_compute. intros Hin. inversion Hin.
Defined.

(** A join on an open socket, with identifiers the log line can print
    and a [roomId] that [JSON.stringify] can serialise, writes one log
    line and sends one confirmation, to the sender, that carries the
    [roomId] of the message as it came. *)
Theorem join_is_confirmed_to_sender `{Runtime} (s : server) (ws : nat) (message : raw)
    (data : json) :
  readyState (sockets s ws) = OPEN ->
  JSON_parse message = Some data ->
  type_is (get (parses s) data "type") "join" = true ->
  to_string_error (stack JoinLog) (get (parses s) data "clientId") = None ->
  to_string_error (stack JoinLog) (get (parses s) data "roomId") = None ->
  stringify_throws (stack JoinConfirm)
    [("type", String "joined"); ("roomId", get (parses s) data "roomId")] = false ->
  (on_message s ws message).2 =
    [Console (ClientJoinedRoom (get (parses s) data "clientId") (get (parses s) data "roomId"));
     Send ws [("type", String "joined"); ("roomId", get (parses s) data "roomId")]].
Proof.
  intros Hopen Hparse Hjoin Hclient Hroom Hfits.
  rewrite (on_message_join _ _ _ _ Hparse Hjoin).
  unfold join, template_error. cbn [allocate rooms sockets].
  rewrite Hclient, Hroom, Hfits, Hopen, send_returns_when_open. reflexivity.
Qed.

Lemma join_is_confirmed_to_sender_witness :
  let s := state_after [connects] in
  readyState (sockets s 0) = OPEN /\
  (on_message (H := ws8) s 0 (join_frame "R1" "c1")).2 =
    [Console (ClientJoinedRoom (String "c1") (String "R1"));
     Send 0 [("type", String "joined"); ("roomId", String "R1")]].
Proof.
  intros s. split; [reflexivity|].
  exact (join_is_confirmed_to_sender (H := ws8) s 0 (join_frame "R1" "c1")
           (JObj [("type", JStr "join"); ("roomId", JStr "R1"); ("clientId", JStr "c1")])
           eq_refl eq_refl eq_refl eq_refl eq_refl eq_refl).
Defined.

(** A join is not announced: whatever the message and the state, nothing
    is sent to any socket but the sender, and the sender is sent at most
    one object. *)
Theorem join_is_not_announced `{Runtime} (s : server) (ws : nat) (message : raw)
    (data : json) :
  JSON_parse message = Some data ->
  type_is (get (parses s) data "type") "join" = true ->
  (forall client, client <> ws -> sent_to client (on_message s ws message).2 = [])
  /\ length (sent_to ws (on_message s ws message).2) <= 1.
Proof.
  intros Hparse Hjoin.
  rewrite (on_message_join _ _ _ _ Hparse Hjoin).
  unfold join. cbn [allocate rooms sockets].
  destruct (template_error _ _ _); [split; [intros client _; reflexivity | cbn; lia]|].
  destruct (stringify_throws _ _); [split; [intros client _; reflexivity | cbn; lia]|].
  destruct (send_throws _); [split; [intros client _; reflexivity | cbn; lia]|].
  cbn [snd sent_to omap list_omap]. split.
  - intros client Hne. unfold sent_to. cbn.
    rewrite decide_False by congruence. reflexivity.
  - unfold sent_to. cbn. rewrite decide_True by reflexivity. cbn. lia.
Qed.

Lemma join_is_not_announced_witness :
  let s := state_after (two_in_room "R1") in
  sent_to 0 (on_message (H := ws8) s 1 (join_frame "R1" "c2")).2 = [].
Proof.
  intros s.
  refine (proj1 (join_is_not_announced (H := ws8) s 1 (join_frame "R1" "c2")
            (JObj [("type", JStr "join"); ("roomId", JStr "R1"); ("clientId", JStr "c2")])
            eq_refl eq_refl) 0 _).
  discriminate.
Defined.

(** Joining the room one is already a member of leaves the registry as it
    is: the member set does not list the socket twice and keeps its
    order. *)
Theorem rejoining_same_room_keeps_registry `{Runtime} (s : server) (ws : nat)
    (message : raw) (data : json) :
  JSON_parse message = Some data ->
  type_is (get (parses s) data "type") "join" = true ->
  ws ∈ clients_of (rooms s) (key_of (get (parses s) data "roomId")) ->
  rooms (on_message s ws message).1 = rooms s.
Proof.
  intros Hparse Hjoin Hin.
  destruct (on_message_join_state s ws message data Hparse Hjoin) as (-> & _ & _).
  unfold clients_of in Hin.
  destruct (rooms s !! key_of (get (parses s) data "roomId")) as [clients|] eqn:Hroom;
    [|inversion Hin].
  cbn [default from_option id] in Hin.
  unfold add_client, ensure_room, has, members.
  rewrite bool_decide_eq_true_2 by (eexists; exact Hroom).
  rewrite Hroom. cbn [default from_option id]. unfold Set_add. rewrite decide_True by exact Hin.
  apply insert_id, Hroom.
Qed.

Lemma rejoining_same_room_keeps_registry_witness :
  let s := state_after (two_in_room "R1") in
  rooms s !! KString "R1" = Some [0; 1] /\
  rooms (on_message (H := ws8) s 0 (join_frame "R1" "c1")).1 = rooms s.
Proof.
  intros s. split; [vm_compute; reflexivity|].
  refine (rejoining_same_room_keeps_registry (H := ws8) s 0 (join_frame "R1" "c1")
            (JObj [("type", JStr "join"); ("roomId", JStr "R1"); ("clientId", JStr "c1")])
            eq_refl eq_refl _).
  vm_compute. repeat constructor.
Defined.

(** ** What a leave and a close do *)

Section Departures.
Implicit Types (r : gmap key (list nat)) (room : value) (k : key) (ws c : nat).

Lemma elem_of_delete_client_iff r room ws c k :
  c ∈ clients_of (delete_client r room ws) k <->
  c ∈ clients_of r k /\ ~ (c = ws /\ k = key_of room).
Proof.
  unfold clients_of at 1. rewrite lookup_delete_client.
  destruct (decide (k = key_of room)) as [->|Hne]; cbn [default from_option id].
  - rewrite elem_of_Set_delete. tauto.
  - fold (clients_of r k). tauto.
Qed.

Lemma elem_of_clean_up_iff r room c k :
  c ∈ clients_of (clean_up r room) k <-> c ∈ clients_of r k.
Proof.
  unfold clients_of at 1. rewrite lookup_clean_up.
  destruct (decide _) as [[-> Hnil]|_]; cbn [default from_option id]; [|reflexivity].
  rewrite Hnil. reflexivity.
Qed.

(** Membership after the removal, with or without the clean-up, and
    after no removal at all when the guard fails. *)
Lemma elem_of_departed r r' room ws :
  r' = r /\ truthy room && has r room = false
  \/ r' = delete_client r room ws /\ truthy room && has r room = true
  \/ r' = clean_up (delete_client r room ws) room /\ truthy room && has r room = true ->
  forall c k,
    c ∈ clients_of r' k <->
    c ∈ clients_of r k /\ ~ (c = ws /\ k = key_of room /\ truthy room = true).
Proof.
  intros [[-> Hguard] | [[-> Hguard] | [-> Hguard]]] c k.
  - split; [|tauto]. intros Hin. split; [exact Hin|].
    intros (-> & -> & Htruthy). rewrite Htruthy in Hguard. cbn in Hguard.
    apply has_false in Hguard. unfold clients_of in Hin.
    rewrite Hguard in Hin. inversion Hin.
  - apply andb_true_iff in Hguard as [Htruthy _].
    rewrite elem_of_delete_client_iff. tauto.
  - apply andb_true_iff in Hguard as [Htruthy _].
    rewrite elem_of_clean_up_iff, elem_of_delete_client_iff. tauto.
Qed.

(** The member list of the room after a departure: the others, in their
    order. *)
Lemma clients_of_departed r r' room ws :
  r' = r /\ truthy room && has r room = false
  \/ r' = delete_client r room ws /\ truthy room && has r room = true
  \/ r' = clean_up (delete_client r room ws) room /\ truthy room && has r room = true ->
  truthy room = true ->
  clients_of r' (key_of room) = Set_delete ws (clients_of r (key_of room)).
Proof.
  intros [[-> Hguard] | [[-> _] | [-> _]]] Htruthy; unfold clients_of at 1.
  - rewrite Htruthy in Hguard. cbn in Hguard. apply has_false in Hguard.
    unfold clients_of. rewrite Hguard. reflexivity.
  - rewrite lookup_delete_client, decide_True by reflexivity. reflexivity.
  - rewrite lookup_departed, decide_True by reflexivity.
    destruct (decide _) as [->|]; reflexivity.
Qed.

End Departures.

(** A leave message removes the sender from the room its [currentRoom]
    names, when that is truthy, and does nothing else: every other
    membership stays, the other members of the room keep their order,
    the sender's socket and variables are as before (the transport stays
    open, [currentRoom] is kept), and nothing is sent to anyone. *)
Theorem leave_removes_only_the_sender `{Runtime} (s : server) (ws : nat) (message : raw)
    (data : json) :
  JSON_parse message = Some data ->
  type_is (get (parses s) data "type") "leave" = true ->
  (forall c k,
      c ∈ clients_of (rooms (on_message s ws message).1) k <->
      c ∈ clients_of (rooms s) k /\
      ~ (c = ws /\ k = key_of (currentRoom (sockets s ws)) /\
         truthy (currentRoom (sockets s ws)) = true))
  /\ (truthy (currentRoom (sockets s ws)) = true ->
      clients_of (rooms (on_message s ws message).1) (key_of (currentRoom (sockets s ws))) =
        Set_delete ws (clients_of (rooms s) (key_of (currentRoom (sockets s ws)))))
  /\ sockets (on_message s ws message).1 = sockets s
  /\ (forall client, sent_to client (on_message s ws message).2 = []).
Proof.
  intros Hparse Hleave.
  unfold on_message. rewrite Hparse, (switch_leave _ _ _ _ Hleave).
  unfold leave. cbn [allocate rooms sockets].
  destruct (truthy _ && has _ _) eqn:Hguard.
  - destruct (template_error _ _ _); cbn [fst snd with_rooms rooms sockets];
      (split; [apply elem_of_departed; rewrite Hguard; tauto|]);
      (split; [apply clients_of_departed; rewrite Hguard; tauto|]);
      split; try reflexivity; intros client; reflexivity.
  - cbn [fst snd rooms sockets].
    split; [apply elem_of_departed; rewrite Hguard; tauto|].
    split; [apply clients_of_departed; rewrite Hguard; tauto|].
    split; [reflexivity | intros client; reflexivity].
Qed.

Lemma leave_removes_only_the_sender_witness :
  let s := state_after three_open in
  let s' := (on_message (H := ws8) s 1 leave_frame).1 in
  clients_of (rooms s) (KString "R1") = [0; 1; 2] /\
  clients_of (rooms s') (KString "R1") = [0; 2] /\
  ~ 1 ∈ clients_of (rooms s') (KString "R1") /\
  readyState (sockets s' 1) = OPEN /\
  sent_to 0 (on_message (H := ws8) s 1 leave_frame).2 = [].
Proof.
  intros s s'.
  destruct (leave_removes_only_the_sender (H := ws8) s 1 leave_frame
              (JObj [("type", JStr "leave")]) eq_refl eq_refl)
    as (Hmembers & Hlist & Hsockets & Hsent).
  split; [vm_compute; reflexivity|].
  split.
  { assert (key_of (currentRoom (sockets s 1)) = KString "R1") as Hkey
      by (vm_compute; reflexivity).
    rewrite Hkey in Hlist. unfold s'. rewrite Hlist by (vm_compute; reflexivity).
    vm_compute. reflexivity. }
  split.
  { intros Hin. apply Hmembers in Hin as [_ Hnot]. apply Hnot.
    repeat split; vm_compute; reflexivity. }
  split; [unfold s'; rewrite Hsockets; vm_compute; reflexivity | apply Hsent].
Defined.

(** A ['close'] event whose listener returns marks the socket closed,
    removes it from the room its [currentRoom] names, when that is
    truthy, and does nothing else: every other membership stays, the
    other members of the room keep their order, no variable of any
    closure changes, and nothing is sent. *)
Theorem close_removes_only_the_sender `{Runtime} (s s' : server) (ws : nat)
    (acts : list action) :
  dispatch s (Close ws) = Some (s', acts) ->
  (forall c k,
      c ∈ clients_of (rooms s') k <->
      c ∈ clients_of (rooms s) k /\
      ~ (c = ws /\ k = key_of (currentRoom (sockets s ws)) /\
         truthy (currentRoom (sockets s ws)) = true))
  /\ (truthy (currentRoom (sockets s ws)) = true ->
      clients_of (rooms s') (key_of (currentRoom (sockets s ws))) =
        Set_delete ws (clients_of (rooms s) (key_of (currentRoom (sockets s ws)))))
  /\ sockets s' = <[ws := {| readyState := CLOSED;
                             currentRoom := currentRoom (sockets s ws);
                             clientId := clientId (sockets s ws) |}]> (sockets s)
  /\ (forall client, sent_to client acts = []).
Proof.
  cbn [dispatch]. unfold on_close.
  assert (sockets (set_readyState s ws CLOSED) ws =
            {| readyState := CLOSED;
               currentRoom := currentRoom (sockets s ws);
               clientId := clientId (sockets s ws) |}) as Hws
    by (unfold set_readyState, with_socket; cbn; apply fn_lookup_insert).
  rewrite Hws. cbn [currentRoom clientId].
  change (rooms (set_readyState s ws CLOSED)) with (rooms s).
  destruct (truthy _ && has _ _) eqn:Hguard.
  - destruct (template_error _ _ _); [discriminate|]. intros [= <- <-].
    split; [apply elem_of_departed; cbn [rooms with_rooms]; rewrite Hguard; tauto|].
    split; [apply clients_of_departed; cbn [rooms with_rooms]; rewrite Hguard; tauto|].
    split; [reflexivity | intros client; reflexivity].
  - intros [= <- <-].
    split; [apply elem_of_departed; cbn [rooms]; rewrite Hguard; tauto|].
    split; [apply clients_of_departed; cbn [rooms]; rewrite Hguard; tauto|].
    split; [reflexivity | intros client; reflexivity].
Qed.

Lemma close_removes_only_the_sender_witness :
  let s := state_after (two_in_room "R1") in
  let s' := state_after one_closes in
  dispatch s (closes 1) = Some (s', [Console (ClientDisconnectedFromRoom (String "c2") (String "R1"))]) /\
  ~ 1 ∈ clients_of (rooms s') (KString "R1") /\
  0 ∈ clients_of (rooms s') (KString "R1") /\
  readyState (sockets s' 1) = CLOSED.
Proof.
  intros s s'.
  assert (dispatch s (closes 1) =
            Some (s', [Console (ClientDisconnectedFromRoom (String "c2") (String "R1"))]))
    as Hclose by (vm_compute; reflexivity).
  destruct (close_removes_only_the_sender (H := ws8) s s' 1 _ Hclose)
    as (Hmembers & _ & Hsockets & _).
  split; [exact Hclose|].
  split.
  { intros Hin. apply Hmembers in Hin as [_ Hnot]. apply Hnot.
    repeat split; vm_compute; reflexivity. }
  split.
  { apply Hmembers. split; [vm_compute; repeat constructor|].
    intros [Heq _]. discriminate Heq. }
  rewrite Hsockets. reflexivity.
Defined.

(** ** The exception that ends the process *)

(** The only exception that leaves a listener is that of the log line of
    the ['close'] listener: it is thrown exactly when the closing socket
    passes the guard (truthy [currentRoom] that is a key of the
    registry) and its [clientId] or [currentRoom] cannot be converted to
    a string, for an own [toString] property or for arrays nested deeper
    than the stack allows.  Every other event, whatever the state, is
    handled. *)
Theorem close_listener_throws_iff `{Runtime} (s : server) (ev : event) :
  dispatch s ev = None <->
  exists ws,
    ev = Close ws /\
    truthy (currentRoom (sockets s ws)) = true /\
    has (rooms s) (currentRoom (sockets s ws)) = true /\
    template_error (stack CloseLog) (clientId (sockets s ws)) (currentRoom (sockets s ws))
      <> None.
Proof.
  split.
  - destruct ev as [|ws message|ws|ws|ws error]; cbn [dispatch]; try discriminate.
    unfold on_close. rewrite sockets_set_readyState. cbn [currentRoom clientId].
    change (rooms (set_readyState s ws CLOSED)) with (rooms s).
    destruct (truthy _) eqn:Htruthy; [|discriminate].
    destruct (has _ _) eqn:Hhas; [|discriminate].
    cbn [andb]. destruct (template_error _ _ _) eqn:Hthrows; [|discriminate].
    intros _. exists ws. repeat split; try assumption.
    rewrite Hthrows. discriminate.
  - intros (ws & -> & Htruthy & Hhas & Hthrows). cbn [dispatch]. unfold on_close.
    rewrite sockets_set_readyState. cbn [currentRoom clientId].
    change (rooms (set_readyState s ws CLOSED)) with (rooms s).
    rewrite Htruthy, Hhas. cbn [andb].
    destruct (template_error _ _ _); [reflexivity | contradiction Hthrows; reflexivity].
Qed.

(** A [clientId] nested too deep is enough: the join is handled, with
    its error logged, and the ['close'] event of the socket then ends
    the process. *)
Remark deep_client_close_ends_process :
  let evs := [connects; says 0 join_frame_with_deep_client] in
  feasible initial evs = true /\
  dispatch (state_after evs) (closes 0) = None.
Proof. vm_compute. split; reflexivity. Qed.

Section Survival.
Context `{Runtime}.

Lemma dispatch_survives (s : server) (ev : event) :
  closures_printable s -> is_Some (dispatch s ev).
Proof.
  intros Hvars. destruct (dispatch s ev) as [result|] eqn:Hdispatch; [eexists; reflexivity|].
  exfalso.
  destruct ev as [|ws message|ws|ws|ws error]; cbn [dispatch] in Hdispatch; try discriminate.
  unfold on_close in Hdispatch.
  assert (sockets (set_readyState s ws CLOSED) ws =
            {| readyState := CLOSED;
               currentRoom := currentRoom (sockets s ws);
               clientId := clientId (sockets s ws) |}) as Hws
    by (unfold set_readyState, with_socket; cbn; apply fn_lookup_insert).
  rewrite Hws in Hdispatch. cbn [currentRoom clientId] in Hdispatch.
  rewrite (closures_close_log s ws Hvars) in Hdispatch.
  destruct (truthy _ && has _ _); discriminate.
Qed.

Lemma run_survives (evs : list event) :
  forall s,
    no_empty_room (rooms s) /\ closures_printable s ->
    admits printable s evs ->
    is_Some (run s evs).
Proof.
  induction evs as [|ev rest IH]; cbn [run admits]; intros s Hinv Hok.
  - eexists; reflexivity.
  - destruct Hok as [Hev Hrest].
    destruct (dispatch_survives s ev (proj2 Hinv)) as [[s1 acts1] Hdispatch].
    rewrite Hdispatch in Hrest |- *.
    destruct (IH s1 (no_empty_room_step s ev s1 acts1 Hinv Hev Hdispatch) Hrest)
      as [[s2 acts2] ->].
    eexists; reflexivity.
Qed.

End Survival.

(** No sequence of events ends the process as long as the identifiers of
    every join can be converted to strings: the event loop handles every
    event of such a run. *)
Theorem server_survives_printable_joins `{Runtime} (evs : list event) :
  admits printable initial evs -> is_Some (run initial evs).
Proof.
  apply run_survives. split; [|intros c; repeat split].
  intros k clients. cbn. rewrite lookup_empty. discriminate.
Qed.

Ltac printable_joins :=
  repeat (split; [first [exact I
                        | intros ? [= <-] _; split; (split; [|split]); reflexivity]|]);
  exact I.

Lemma server_survives_printable_joins_witness :
  admits (H := ws8) printable initial one_closes /\ is_Some (run initial one_closes).
Proof.
  assert (admits (H := ws8) printable initial one_closes) as Hok.
  { unfold one_closes, two_in_room. cbn [app admits dispatch says connects closes].
    printable_joins. }
  split; [exact Hok|].
  exact (server_survives_printable_joins (H := ws8) one_closes Hok).
Defined.

(** ** How the operations compose *)

Lemma Set_delete_new (ws : nat) (clients : list nat) :
  ws ∉ clients -> Set_delete ws (clients ++ [ws]) = clients.
Proof.
  intros Hnew. unfold Set_delete. rewrite filter_app.
  rewrite (filter_cons _ ws []), decide_False by tauto.
  rewrite filter_nil, app_nil_r.
  induction clients as [|c rest IH]; [reflexivity|].
  rewrite not_elem_of_cons in Hnew. destruct Hnew as [Hne Hrest].
  rewrite filter_cons, decide_True by congruence. rewrite IH by exact Hrest. reflexivity.
Qed.

(** Join then leave is a round trip on the registry.  In a state reached
    by a run with printable joins, a socket that joins a room it is not a
    member of, under a truthy name and with identifiers the log line of
    [case 'leave'] can print, and then sends a leave, leaves the registry
    exactly as it was before the join: the room is deleted again if the
    join created it, and has its old member list, in its old order, if
    it did not. *)
Theorem join_then_leave_restores_registry `{Runtime} (evs : list event) (s : server)
    (acts : list action) (ws : nat) (joining leaving : raw) (data data' : json) :
  admits printable initial evs ->
  run initial evs = Some (s, acts) ->
  JSON_parse joining = Some data ->
  type_is (get (parses s) data "type") "join" = true ->
  truthy (get (parses s) data "roomId") = true ->
  to_string_error (stack LeaveLog) (get (parses s) data "roomId") = None ->
  to_string_error (stack LeaveLog) (get (parses s) data "clientId") = None ->
  ws ∉ clients_of (rooms s) (key_of (get (parses s) data "roomId")) ->
  JSON_parse leaving = Some data' ->
  type_is (get (S (parses s)) data' "type") "leave" = true ->
  rooms (on_message (on_message s ws joining).1 ws leaving).1 = rooms s.
Proof.
  intros Hok Hrun Hparse Hjoin Htruthy Hroom Hclient Hnew Hparse' Hleave.
  destruct (run_no_empty_room evs s acts Hok Hrun) as [Hrooms _].
  destruct (on_message_join_state s ws joining data Hparse Hjoin) as (Hr1 & Hs1 & Hp1).
  set (room := get (parses s) data "roomId") in *.
  set (s1 := (on_message s ws joining).1) in *.
  assert (sockets s1 ws = {| readyState := readyState (sockets s ws);
                             currentRoom := room;
                             clientId := get (parses s) data "clientId" |}) as Hws
    by (rewrite Hs1; apply fn_lookup_insert).
  unfold on_message. rewrite Hparse', Hp1, (switch_leave _ _ _ _ Hleave).
  unfold leave. cbn [allocate rooms sockets]. rewrite Hws. cbn [currentRoom clientId].
  assert (has (rooms s1) room = true) as Hhas.
  { unfold has. apply bool_decide_eq_true_2. rewrite Hr1, lookup_joined.
    rewrite decide_True by reflexivity. eexists; reflexivity. }
  unfold template_error.
  rewrite Htruthy, Hhas, Hclient, Hroom. cbn [andb fst rooms with_rooms].
  apply map_eq. intros k. rewrite lookup_departed.
  destruct (decide (k = key_of room)) as [->|Hne].
  - assert (clients_of (rooms s1) (key_of room) = clients_of (rooms s) (key_of room) ++ [ws])
      as ->.
    { unfold clients_of at 1. rewrite Hr1, lookup_joined, decide_True by reflexivity.
      cbn [default from_option id]. unfold Set_add. rewrite decide_False by exact Hnew.
      reflexivity. }
    rewrite (Set_delete_new _ _ Hnew). unfold clients_of.
    destruct (rooms s !! key_of room) as [clients|] eqn:Hold; cbn [default from_option id].
    + rewrite decide_False by (eapply Hrooms, Hold). reflexivity.
    + rewrite decide_True by reflexivity. reflexivity.
  - rewrite Hr1, lookup_joined, decide_False by exact Hne. reflexivity.
Qed.

Lemma join_then_leave_restores_registry_witness :
  let s := state_after (two_in_room "R1") in
  admits (H := ws8) printable initial (two_in_room "R1") /\
  rooms (on_message (H := ws8) s 0 (join_frame "R2" "c1")).1 <> rooms s /\
  rooms (on_message (H := ws8) (on_message (H := ws8) s 0 (join_frame "R2" "c1")).1
           0 leave_frame).1 = rooms s.
Proof.
  intros s.
  assert (admits (H := ws8) printable initial (two_in_room "R1")) as Hok.
  { unfold two_in_room. cbn [admits dispatch says connects]. printable_joins. }
  assert (feasible initial (two_in_room "R1") = true) as Hfeasible by (vm_compute; reflexivity).
  split; [exact Hok|]. split.
  { intros Heq. apply (f_equal (fun r => r !! KString "R2")) in Heq.
    vm_compute in Heq. discriminate Heq. }
  refine (join_then_leave_restores_registry (H := ws8) (two_in_room "R1") s
            (actions_of (two_in_room "R1")) 0 (join_frame "R2" "c1") leave_frame
            (JObj [("type", JStr "join"); ("roomId", JStr "R2"); ("clientId", JStr "c1")])
            (JObj [("type", JStr "leave")])
            Hok (state_after_run _ Hfeasible) eq_refl eq_refl eq_refl eq_refl eq_refl _
            eq_refl eq_refl).
  vm_compute. intros Hin. inversion Hin.
Defined.

(** A join never takes a socket out of a room: after a socket has joined
    anything, a relay by another member of a room the socket was in,
    of an object [JSON.stringify] can serialise, still reaches it, as
    long as its transport is open. *)
Theorem joined_elsewhere_still_receives `{Runtime} (s : server) (ws other : nat)
    (joining relayed : raw) (data data' : json) (obj : object) :
  JSON_parse joining = Some data ->
  type_is (get (parses s) data "type") "join" = true ->
  other <> ws ->
  truthy (currentRoom (sockets s other)) = true ->
  ws ∈ members (rooms s) (currentRoom (sockets s other)) ->
  readyState (sockets s ws) = OPEN ->
  JSON_parse relayed = Some data' ->
  relay_object (S (parses s)) data' = Some obj ->
  stringify_throws (stack RelaySend) obj = false ->
  Send ws obj ∈ (on_message (on_message s ws joining).1 other relayed).2.
Proof.
  intros Hparse Hjoin Hne Htruthy Hin Hopen Hparse' Hobj Hfits.
  destruct (on_message_join_state s ws joining data Hparse Hjoin) as (Hr1 & Hs1 & Hp1).
  set (s1 := (on_message s ws joining).1) in *.
  assert (sockets s1 other = sockets s other) as Hother
    by (rewrite Hs1; apply fn_lookup_insert_ne; congruence).
  assert (readyState (sockets s1 ws) = OPEN) as Hopen1
    by (rewrite Hs1, fn_lookup_insert; exact Hopen).
  assert (ws ∈ clients_of (rooms s1) (key_of (currentRoom (sockets s1 other)))) as Hin1.
  { rewrite Hother, Hr1. apply elem_of_joined. left. exact Hin. }
  unfold clients_of in Hin1.
  destruct (rooms s1 !! key_of (currentRoom (sockets s1 other))) as [clients|] eqn:Hroom;
    [|inversion Hin1].
  cbn [default from_option id] in Hin1.
  rewrite <- Hp1 in Hobj. rewrite <- Hother in Htruthy.
  rewrite (relay_completes _ _ _ _ _ _ Hparse' Hobj Hfits Htruthy Hroom).
  apply list_elem_of_fmap. exists ws. split; [reflexivity|].
  apply list_elem_of_filter. split; [split; [congruence | exact Hopen1] | exact Hin1].
Qed.

Lemma joined_elsewhere_still_receives_witness :
  let s := state_after (two_in_room "R1") in
  let s1 := (on_message (H := ws8) s 0 (join_frame "R2" "c1")).1 in
  currentRoom (sockets s1 0) = String "R2" /\
  currentRoom (sockets s1 1) = String "R1" /\
  Send 0 [("type", String "clear"); ("drawerId", String "c2")]
    ∈ (on_message (H := ws8) s1 1 (clear_frame "c2")).2.
Proof.
  intros s s1.
  split; [vm_compute; reflexivity|]. split; [vm_compute; reflexivity|].
  refine (joined_elsewhere_still_receives (H := ws8) s 0 1 (join_frame "R2" "c1")
            (clear_frame "c2")
            (JObj [("type", JStr "join"); ("roomId", JStr "R2"); ("clientId", JStr "c1")])
            (JObj [("type", JStr "clear"); ("drawerId", JStr "c2")])
            [("type", String "clear"); ("drawerId", String "c2")]
            eq_refl eq_refl _ _ _ _ eq_refl eq_refl eq_refl).
  - discriminate.
  - vm_compute. reflexivity.
  - vm_compute. repeat constructor.
  - vm_compute. reflexivity.
Defined.

(** A room joined under a falsy name cannot be left.  After a join whose
    [roomId] is falsy (absent, [null], [false], [0] or the empty string)
    the socket is a member of the room under that key; its leave message
    changes nothing, and its ['close'] event marks the socket closed and
    leaves the registry as it is, the closed socket still listed. *)
Theorem falsy_room_is_never_left `{Runtime} (s : server) (ws : nat)
    (joining leaving : raw) (data data' : json) :
  JSON_parse joining = Some data ->
  type_is (get (parses s) data "type") "join" = true ->
  truthy (get (parses s) data "roomId") = false ->
  JSON_parse leaving = Some data' ->
  type_is (get (S (parses s)) data' "type") "leave" = true ->
  ws ∈ clients_of (rooms (on_message s ws joining).1) (key_of (get (parses s) data "roomId"))
  /\ on_message (on_message s ws joining).1 ws leaving =
       (allocate (on_message s ws joining).1, [])
  /\ dispatch (on_message s ws joining).1 (Close ws) =
       Some (set_readyState (on_message s ws joining).1 ws CLOSED, []).
Proof.
  intros Hparse Hjoin Hfalsy Hparse' Hleave.
  destruct (on_message_join_state s ws joining data Hparse Hjoin) as (Hr1 & Hs1 & Hp1).
  set (s1 := (on_message s ws joining).1) in *.
  assert (currentRoom (sockets s1 ws) = get (parses s) data "roomId") as Hroom
    by (rewrite Hs1, fn_lookup_insert; reflexivity).
  split; [|split].
  - rewrite Hr1. apply elem_of_joined. right. split; reflexivity.
  - unfold on_message. rewrite Hparse', Hp1, (switch_leave _ _ _ _ Hleave).
    unfold leave. cbn [allocate rooms sockets]. rewrite Hroom, Hfalsy. reflexivity.
  - cbn [dispatch]. unfold on_close.
    assert (currentRoom (sockets (set_readyState s1 ws CLOSED) ws) =
              get (parses s) data "roomId") as ->.
    { unfold set_readyState, with_socket. cbn [sockets].
      rewrite fn_lookup_insert. exact Hroom. }
    rewrite Hfalsy. reflexivity.
Qed.

Lemma falsy_room_is_never_left_witness :
  let s := state_after [connects] in
  let s1 := (on_message (H := ws8) s 0 (join_frame "" "c1")).1 in
  rooms s1 !! KString "" = Some [0] /\
  on_message (H := ws8) s1 0 leave_frame = (allocate s1, []) /\
  dispatch s1 (closes 0) = Some (set_readyState s1 0 CLOSED, []).
Proof.
  intros s s1.
  destruct (falsy_room_is_never_left (H := ws8) s 0 (join_frame "" "c1") leave_frame
              (JObj [("type", JStr "join"); ("roomId", JStr ""); ("clientId", JStr "c1")])
              (JObj [("type", JStr "leave")]) eq_refl eq_refl eq_refl eq_refl eq_refl)
    as (_ & Hleave & Hclose).
  split; [vm_compute; reflexivity|]. split; [exact Hleave | exact Hclose].
Defined.

(** ** Rooms named by an object *)

Section Allocation.
Context `{Runtime}.
Implicit Types (s : server) (ws : nat) (data : json).

Lemma key_of_get_Object serial data name serial' name' :
  key_of (get serial data name) = KObject (serial', name') -> serial' = serial.
Proof.
  unfold get. destruct data; try discriminate.
  destruct (own_property props name) as [[| | n | | |]|]; try discriminate;
    cbn; try (intros [= <- _]; reflexivity).
  destruct n; discriminate.
Qed.

Lemma switch_parses s ws serial data :
  parses (switch s ws serial data).1.1 = parses s.
Proof.
  destruct (switch_cases s ws serial data)
    as [-> | [[_ ->] | [[obj [_ ->]] | [[_ ->] | ->]]]]; try reflexivity.
  - unfold join. destruct (template_error _ _ _); [reflexivity|].
    destruct (stringify_throws _ _); [reflexivity|].
    destruct (send_throws _); reflexivity.
  - rewrite broadcast_state. reflexivity.
  - unfold leave. destruct (_ && _); [|reflexivity].
    destruct (template_error _ _ _); reflexivity.
Qed.

Lemma switch_keys s ws serial data k :
  is_Some (rooms (switch s ws serial data).1.1 !! k) ->
  is_Some (rooms s !! k)
  \/ (type_is (get serial data "type") "join" = true /\ k = key_of (get serial data "roomId")).
Proof.
  destruct (switch_cases s ws serial data)
    as [-> | [[Hjoin ->] | [[obj [_ ->]] | [[_ ->] | ->]]]]; try (left; assumption).
  - destruct (join_state s ws serial data) as [-> _]. rewrite lookup_joined.
    destruct (decide (k = key_of (get serial data "roomId"))); [right | left]; tauto.
  - rewrite broadcast_state. tauto.
  - unfold leave. destruct (_ && _) eqn:Hguard; [|tauto].
    apply andb_true_iff in Hguard as [_ Hhas].
    apply bool_decide_eq_true in Hhas.
    assert (forall r,
               (r = delete_client (rooms s) (currentRoom (sockets s ws)) ws \/
                r = clean_up (delete_client (rooms s) (currentRoom (sockets s ws)) ws)
                      (currentRoom (sockets s ws))) ->
               is_Some (r !! k) -> is_Some (rooms s !! k)) as Hdom.
    { intros r [-> | ->].
      - rewrite lookup_delete_client. destruct (decide _) as [->|]; tauto.
      - rewrite lookup_departed. destruct (decide _) as [->|]; tauto. }
    destruct (template_error _ _ _); cbn [fst rooms with_rooms]; intros Hk; left;
      eapply Hdom; [| exact Hk | | exact Hk]; tauto.
Qed.

Lemma keys_allocated_step s ev s' acts :
  keys_allocated s -> dispatch s ev = Some (s', acts) -> keys_allocated s'.
Proof.
  unfold keys_allocated. intros Hs Hdispatch serial name Hk.
  destruct ev as [|ws message|ws|ws|ws error]; cbn [dispatch] in Hdispatch.
  - injection Hdispatch as <- _. exact (Hs _ _ Hk).
  - injection Hdispatch as Heq.
    assert (s' = (on_message s ws message).1) as -> by (rewrite Heq; reflexivity).
    pose proof (on_message_state s ws message) as Hstate.
    destruct (JSON_parse message) as [data|];
      [|rewrite Hstate in Hk |- *; exact (Hs _ _ Hk)].
    rewrite Hstate in Hk |- *. rewrite switch_parses. cbn [allocate parses].
    destruct (switch_keys _ _ _ _ _ Hk) as [Hold | [_ Hnew]].
    + apply Nat.lt_lt_succ_r. exact (Hs _ _ Hold).
    + symmetry in Hnew. apply key_of_get_Object in Hnew as ->. apply Nat.lt_succ_diag_r.
  - injection Hdispatch as <- _. exact (Hs _ _ Hk).
  - destruct (on_close_state _ _ _ _ Hdispatch) as [_ Hrooms].
    assert (parses s' = parses s) as ->.
    { unfold on_close in Hdispatch. destruct (_ && _); [|injection Hdispatch as <- _; reflexivity].
      destruct (template_error _ _ _);
        [discriminate | injection Hdispatch as <- _; reflexivity]. }
    apply (Hs serial name).
    change (rooms (set_readyState s ws CLOSED)) with (rooms s) in Hrooms.
    destruct Hrooms as [<- | (_ & _ & Hrooms)]; [exact Hk|].
    rewrite Hrooms, lookup_departed in Hk.
    destruct (decide _) as [->|]; [|exact Hk].
    unfold clients_of in Hk.
    destruct (rooms s !! key_of _) eqn:Hroom; [eexists; reflexivity|].
    cbn in Hk. destruct Hk as [? [=]].
  - injection Hdispatch as <- _. exact (Hs _ _ Hk).
Qed.

Lemma reachable_keys_allocated s : reachable s -> keys_allocated s.
Proof.
  intros (evs & acts & Hrun).
  refine (run_invariant (fun _ _ => True) keys_allocated _
            evs initial s acts _ (admits_always evs initial) Hrun).
  - intros s0 ev s1 acts1 Hs0 _. apply keys_allocated_step, Hs0.
  - intros serial name [clients Hk]. cbn in Hk. rewrite lookup_empty in Hk. discriminate.
Qed.

End Allocation.

(** A room named by an array or an object is private.  [Map] compares
    such keys by identity and every parse allocates new objects, so a
    join whose [roomId] is an array or an object always creates a room,
    with the sender as its only member, and no message parsed later can
    name that room again. *)
Theorem object_room_is_private `{Runtime} (s : server) (ws : nat) (message : raw)
    (data : json) (r : ref) (content : json) :
  reachable s ->
  JSON_parse message = Some data ->
  type_is (get (parses s) data "type") "join" = true ->
  get (parses s) data "roomId" = Object r content ->
  rooms (on_message s ws message).1 !! key_of (get (parses s) data "roomId") = Some [ws]
  /\ forall later data',
       parses s < later ->
       key_of (get later data' "roomId") <> key_of (get (parses s) data "roomId").
Proof.
  intros Hreach Hparse Hjoin Hobject.
  assert (r = (parses s, "roomId")) as ->.
  { unfold get in Hobject. destruct data; try discriminate.
    destruct (own_property props "roomId") as [[]|]; cbn in Hobject; congruence. }
  rewrite Hobject. cbn [key_of]. split.
  - destruct (on_message_join_state s ws message data Hparse Hjoin) as (-> & _ & _).
    rewrite Hobject, lookup_joined. cbn [key_of]. rewrite decide_True by reflexivity.
    unfold clients_of.
    destruct (rooms s !! KObject (parses s, "roomId")) as [clients|] eqn:Hold.
    + exfalso. apply (Nat.lt_irrefl (parses s)).
      apply (reachable_keys_allocated s Hreach (parses s) "roomId"). eexists; exact Hold.
    + reflexivity.
  - intros later data' Hlater Heq. apply key_of_get_Object in Heq. lia.
Qed.

Lemma object_room_is_private_witness :
  let s := state_after [connects; connects; says 0 (join_frame_with_array_room "c1")] in
  let s' := (on_message (H := ws8) s 1 (join_frame_with_array_room "c2")).1 in
  rooms s !! KObject (0, "roomId") = Some [0] /\
  rooms s' !! KObject (1, "roomId") = Some [1] /\
  rooms s' !! KObject (0, "roomId") = Some [0].
Proof.
  intros s s'.
  assert (feasible initial [connects; connects; says 0 (join_frame_with_array_room "c1")] = true)
    as Hfeasible by (vm_compute; reflexivity).
  split; [vm_compute; reflexivity|].
  split; [|vm_compute; reflexivity].
  exact (proj1 (object_room_is_private (H := ws8) s 1 (join_frame_with_array_room "c2")
           (JObj [("type", JStr "join"); ("roomId", JArr [JStr "R1"]); ("clientId", JStr "c2")])
           (1, "roomId") (JArr [JStr "R1"])
           (state_after_reachable _ Hfeasible) eq_refl eq_refl eq_refl)).
Defined.

(** ** Who writes the variables of a closure *)

(** [currentRoom] and [clientId] of a connection change only when the
    connection is accepted and when it sends a join: no leave, relay,
    close, error or other message, and no event of another connection,
    writes them. *)
Theorem closure_changes_only_on_join `{Runtime} (s s' : server) (ev : event)
    (acts : list action) (c : nat) :
  dispatch s ev = Some (s', acts) ->
  vars s' c <> vars s c ->
  (ev = Connection /\ c = accepted s)
  \/ exists message data,
       ev = Message c message /\ JSON_parse message = Some data /\
       type_is (get (parses s) data "type") "join" = true.
Proof.
  intros Hdispatch Hchanged.
  destruct (dispatch_effect _ _ _ _ Hdispatch)
    as [[_ Hsame] | [[-> [_ Hfresh]] | [(ws & message & data & -> & Hparse & Hjoin & _ & Hset)
       | [(ws & _ & _ & Hsame) | (ws & _ & _ & Hsame)]]]].
  - contradiction (Hchanged (Hsame c)).
  - left. split; [reflexivity|]. rewrite Hfresh in Hchanged.
    destruct (decide (accepted s = c)); [congruence | contradiction].
  - right. rewrite Hset in Hchanged.
    destruct (decide (ws = c)) as [->|]; [|contradiction].
    exists message, data. repeat split; assumption.
  - contradiction (Hchanged (Hsame c)).
  - contradiction (Hchanged (Hsame c)).
Qed.

Lemma closure_changes_only_on_join_witness :
  let s := state_after (two_in_room "R1") in
  let s' := state_after (two_in_room "R1" ++ [says 0 (join_frame "R2" "c1")]) in
  vars s' 0 <> vars s 0 /\
  exists message data,
    says 0 (join_frame "R2" "c1") = @Message ws8 0 message /\
    JSON_parse message = Some data /\
    type_is (get (parses s) data "type") "join" = true.
Proof.
  intros s s'.
  assert (vars s' 0 <> vars s 0) as Hchanged by (vm_compute; discriminate).
  split; [exact Hchanged|].
  destruct (closure_changes_only_on_join (H := ws8) s s' (says 0 (join_frame "R2" "c1"))
              [Console (ClientJoinedRoom (String "c1") (String "R2"));
               Send 0 [("type", String "joined"); ("roomId", String "R2")]] 0)
    as [[Hconn _] | Hjoin].
  - vm_compute. reflexivity.
  - exact Hchanged.
  - discriminate Hconn.
  - exact Hjoin.
Defined.
